(** * Runtime policy of the engine router: trace demultiplexer, build /
    ingest life cycle and render

    Shallow embedding of [src/engine/source/router/src/runtimePolicy.cpp]
    ([router::RuntimePolicy]).  Strings are byte strings ([string] is a list
    of [ascii], one per [char]); [std::unordered_map] is a [gmap]; vectors
    are lists; the object's fields are threaded explicitly as a record. *)

From Stdlib Require Import Ascii String Sorted DecimalString.
From stdpp Require Import base option list strings gmap.

(** ** [std::regex] with the default ECMAScript grammar

    The fragment needed by the two trace patterns: literal characters, a
    negated bracket expression, [.], the greedy [+] over a one-character
    atom, capture groups, concatenation and the assertions [^] and [$].
    The matcher is the backtracking one of the standard: a quantifier first
    tries one more repetition and falls back to the continuation. *)

Inductive charset : Type :=
| CsLit (c : ascii)          (* an ordinary or escaped character *)
| CsNot (cs : list ascii)    (* [^...] *)
| CsAny.                     (* . *)

Inductive regex : Type :=
| REps
| RBol                               (* ^ *)
| REol                               (* $ *)
| RSet (cs : charset)
| RPlus (cs : charset)               (* atom+ , greedy *)
| RGroup (i : nat) (r : regex)       (* i-th capture group *)
| RSeq (r1 r2 : regex).

(** [.] matches every character but the line terminators LF and CR. *)
Definition is_line_terminator (c : ascii) : bool :=
  bool_decide (c = "010"%char) || bool_decide (c = "013"%char).

Definition cs_match (cs : charset) (c : ascii) : bool :=
  match cs with
  | CsLit d => bool_decide (c = d)
  | CsNot ds => negb (bool_decide (c ∈ ds))
  | CsAny => negb (is_line_terminator c)
  end.

(** Matcher state: whether the cursor is at the first character of the
    target, what is left of the target, and the sub-matches so far (most
    recent first). *)
Record mstate : Type := MState {
  at_begin : bool;
  rest : string;
  caps : list (nat * string)
}.

Definition cont : Type := mstate → option mstate.

(** The text between two cursors: [before] ends with [after]. *)
Fixpoint take_str (n : nat) (s : string) : string :=
  match n, s with
  | S n', String c s' => String c (take_str n' s')
  | _, _ => EmptyString
  end.

Definition consumed (before after : string) : string :=
  take_str (String.length before - String.length after) before.

Fixpoint plus_loop (cs : charset) (k : cont) (cp : list (nat * string))
    (s : string) : option mstate :=
  match s with
  | EmptyString => None
  | String c s' =>
      if cs_match cs c then
        match plus_loop cs k cp s' with
        | Some m => Some m
        | None => k (MState false s' cp)
        end
      else None
  end.

Fixpoint rmatch (r : regex) (k : cont) (m : mstate) : option mstate :=
  match r with
  | REps => k m
  | RBol => if at_begin m then k m else None
  | REol => match rest m with EmptyString => k m | String _ _ => None end
  | RSet cs =>
      match rest m with
      | String c s' => if cs_match cs c then k (MState false s' (caps m)) else None
      | EmptyString => None
      end
  | RPlus cs => plus_loop cs k (caps m) (rest m)
  | RGroup i r' =>
      rmatch r'
        (λ m', k (MState (at_begin m') (rest m')
                    ((i, consumed (rest m) (rest m')) :: caps m')))
        m
  | RSeq r1 r2 => rmatch r1 (rmatch r2 k) m
  end.

(** [std::regex_search]: the leftmost start position at which the pattern
    matches wins. *)
Fixpoint search_from (r : regex) (bol : bool) (s : string) : option mstate :=
  match rmatch r Some (MState bol s []) with
  | Some m => Some m
  | None =>
      match s with
      | EmptyString => None
      | String _ s' => search_from r false s'
      end
  end.

Definition regex_search (r : regex) (s : string) : option mstate :=
  search_from r true s.

(** [match[i].str()]; a group that took no part in the match reads as the
    empty string. *)
Fixpoint sub_match (i : nat) (cp : list (nat * string)) : string :=
  match cp with
  | [] => EmptyString
  | (j, t) :: cp' => if bool_decide (i = j) then t else sub_match i cp'
  end.

Definition str (m : mstate) (i : nat) : string := sub_match i (caps m).

(** *** From the pattern text to the regular expression

    The constructor of [std::regex] reads the pattern; [parse_regex] does so
    for the fragment above and answers [None] on anything else
    (alternatives, ranges, other quantifiers, class escapes).  Capture
    groups are numbered by their opening parenthesis. *)
Definition is_syntax_char (c : ascii) : bool :=
  bool_decide
    (c ∈ ["^"; "$"; "\"; "."; "*"; "+"; "?"; "("; ")"; "["; "]"; "{"; "}"; "|"]%char).

(** The atoms of a bracket expression, up to its closing bracket. *)
Fixpoint parse_class (s : string) : option (list ascii * string) :=
  match s with
  | EmptyString => None
  | String c s' =>
      if bool_decide (c = "]"%char) then Some ([], s')
      else if bool_decide (c = "\"%char) then
        match s' with
        | String d s'' =>
            if is_syntax_char d then
              '(ds, r) ← parse_class s''; Some (d :: ds, r)
            else None
        | EmptyString => None
        end
      else if bool_decide (c = "-"%char) then None
      else '(ds, r) ← parse_class s'; Some (c :: ds, r)
  end.

(** An atom that matches one character. *)
Definition parse_atom (s : string) : option (charset * string) :=
  match s with
  | EmptyString => None
  | String c s' =>
      if bool_decide (c = "."%char) then Some (CsAny, s')
      else if bool_decide (c = "\"%char) then
        match s' with
        | String d s'' => if is_syntax_char d then Some (CsLit d, s'') else None
        | EmptyString => None
        end
      else if bool_decide (c = "["%char) then
        match s' with
        | String "^" s'' => '(ds, r) ← parse_class s''; Some (CsNot ds, r)
        | _ => None
        end
      else if is_syntax_char c then None
      else Some (CsLit c, s')
  end.

(** The terms up to the end of the pattern or to the parenthesis that
    closes the enclosing group; [n] groups were opened before. *)
Fixpoint parse_terms (fuel : nat) (s : string) (n : nat)
    : option (regex * string * nat) :=
  match fuel with
  | 0 => None
  | S fuel' =>
      match s with
      | EmptyString => Some (REps, s, n)
      | String c s' =>
          if bool_decide (c = ")"%char) then Some (REps, s, n)
          else if bool_decide (c = "^"%char) then
            '(r, s1, n1) ← parse_terms fuel' s' n; Some (RSeq RBol r, s1, n1)
          else if bool_decide (c = "$"%char) then
            '(r, s1, n1) ← parse_terms fuel' s' n; Some (RSeq REol r, s1, n1)
          else if bool_decide (c = "("%char) then
            '(inner, s1, n1) ← parse_terms fuel' s' (S n);
            match s1 with
            | String ")" s2 =>
                '(r, s3, n3) ← parse_terms fuel' s2 n1;
                Some (RSeq (RGroup (S n) inner) r, s3, n3)
            | _ => None
            end
          else
            '(cs, s1) ← parse_atom s;
            match s1 with
            | String "+" s2 =>
                '(r, s3, n3) ← parse_terms fuel' s2 n;
                Some (RSeq (RPlus cs) r, s3, n3)
            | _ =>
                '(r, s3, n3) ← parse_terms fuel' s1 n;
                Some (RSeq (RSet cs) r, s3, n3)
            end
      end
  end.

Definition parse_regex (pattern : string) : option regex :=
  match parse_terms (S (String.length pattern)) pattern 0 with
  | Some (r, EmptyString, _) => Some r
  | _ => None
  end.

(** [std::regex(pattern)] on a pattern of the fragment (the two patterns of
    the source are: [parse_regex] succeeds on them). *)
Definition std_regex (pattern : string) : regex :=
  default REps (parse_regex pattern).

(** The patterns of [listenAllTrace], as in its two raw string literals. *)
Definition opPatternTrace : string := "\[([^\]]+)\] \[condition\]:(.+)".
Definition opRegex : regex := std_regex opPatternTrace.

Definition opPatternTraceVerbose : string := "^\[([^\]]+)\] (.+)".
Definition opRegexVerbose : regex := std_regex opPatternTraceVerbose.

(** The two patterns as the specification writes them, to be compared with
    the ones of the source. *)
Definition spec_condition_pattern_text : string :=
  "^\[([^\]]+)\] \[condition\]:(.+)$".
Definition spec_condition_regex : regex := std_regex spec_condition_pattern_text.

Definition spec_verbose_pattern_text : string := "^\[([^\]]+)\] (.+)$".
Definition spec_verbose_regex : regex := std_regex spec_verbose_pattern_text.

(** The bracket expression [[^\]]] of all four patterns. *)
Definition not_rbracket : charset := CsNot ["]"%char].

Fixpoint rlit (s : string) : regex :=
  match s with
  | EmptyString => REps
  | String c s' => RSeq (RSet (CsLit c)) (rlit s')
  end.

Definition rcat (rs : list regex) : regex := foldr RSeq REps rs.

(** *** The trace patterns read as a scanner

    All four patterns have the form [\[([^\]]+)SEP(.+)] with [SEP] a literal
    text that starts with a closing bracket, optionally between [^] and [$].
    [trace_shape] scans a target for that form without backtracking: a
    bracket, the longest text without a closing bracket, the separator, the
    longest text without a line terminator. *)
Definition trace_pattern (bol : bool) (sep : string) (eol : bool) : regex :=
  rcat ((if bol then [RBol] else [])
        ++ [rlit "["; RGroup 1 (RPlus not_rbracket); rlit sep;
            RGroup 2 (RPlus CsAny)]
        ++ (if eol then [REol] else [])).

Fixpoint span (cs : charset) (s : string) : string * string :=
  match s with
  | EmptyString => (EmptyString, EmptyString)
  | String c s' =>
      if cs_match cs c then (String c (span cs s').1, (span cs s').2)
      else (EmptyString, s)
  end.

Fixpoint strip_prefix (t s : string) : option string :=
  match t, s with
  | EmptyString, _ => Some s
  | String c t', String d s' =>
      if bool_decide (d = c) then strip_prefix t' s' else None
  | String _ _, EmptyString => None
  end.

Definition is_empty (s : string) : bool :=
  match s with EmptyString => true | String _ _ => false end.

Definition trace_shape (bol : bool) (sep : string) (eol : bool)
    (at_start : bool) (s : string) : option mstate :=
  if bol && negb at_start then None else
  match s with
  | String c s1 =>
      if bool_decide (c = "["%char) then
        let asset := (span not_rbracket s1).1 in
        if is_empty asset then None else
        match strip_prefix sep (span not_rbracket s1).2 with
        | Some s3 =>
            let text := (span CsAny s3).1 in
            let s4 := (span CsAny s3).2 in
            if is_empty text then None
            else if eol && negb (is_empty s4) then None
            else Some (MState false s4 [(2, text); (1, asset)])
        | None => None
        end
      else None
  | EmptyString => None
  end.

(** ** Collaborators of the runtime policy

    [builder::Builder], [rxbk::Controller] and [base::Event] are interfaces
    the policy consumes.  A call either returns or throws a
    [std::exception]; an exception is represented by the text
    [utils::getExceptionStack] renders for it.  A call that throws leaves
    the controller as it was before the call. *)

Definition exception : Type := string.

Inductive outcome (A : Type) : Type :=
| Returns (a : A)
| Throws (e : exception).
Arguments Returns {A} a.
Arguments Throws {A} e.

(** [base::result::Result<T>], the carrier handed to the controller. *)
Record Result (A : Type) : Type := MkResult {
  payload : A;
  success : bool
}.
Arguments MkResult {A} payload success.
Arguments payload {A} r.
Arguments success {A} r.

Definition makeSuccess {A : Type} (a : A) : Result A := MkResult a true.

Class Rxbk : Type := {
  Environment : Type;
  Controller : Type;
  Event : Type;
  Builder : Type;
  (* builder->buildPolicy(name) *)
  buildPolicy : Builder → string → outcome Environment;
  (* std::make_shared<rxbk::Controller>(rxbk::buildRxPipeline(env)) *)
  buildRxPipeline : Environment → outcome Controller;
  (* controller->getOutput().subscribe(subscriber) *)
  getOutput_subscribe : Controller → outcome Controller;
  (* controller->listenOnAllTrace(subscriber) *)
  listenOnAllTrace : Controller → outcome Controller;
  (* controller->ingestEvent(result) *)
  ingestEvent : Controller → Result Event → Controller;
  (* event->payload()->prettyStr() *)
  event_prettyStr : Event → string
}.

(** [base::Error] *)
Record Error : Type := MkError { message : string }.

(** Modelled from the spec: [json::Json] is not among the sources.  The
    trace document is an object whose members are addressed by the path
    ["/" + asset]; a later write to a path replaces the earlier one, and the
    empty object is printed as ["{}"]. *)
Abbreviation Json := (gmap string string).

Definition setString (value path : string) (j : Json) : Json :=
  <[path := value]> j.

Definition getString (path : string) (j : Json) : option string := j !! path.

Definition dquote : string := String "034" "".

Definition json_key (path : string) : string :=
  match path with
  | String "/" key => key
  | _ => path
  end.

Definition json_member (kv : string * string) : string :=
  dquote +:+ json_key kv.1 +:+ dquote +:+ ":" +:+ dquote +:+ kv.2 +:+ dquote.

Fixpoint json_members (kvs : list (string * string)) : string :=
  match kvs with
  | [] => ""
  | [kv] => json_member kv
  | kv :: kvs' => json_member kv +:+ "," +:+ json_members kvs'
  end.

Definition prettyStr (j : Json) : string :=
  "{" +:+ json_members (map_to_list j) +:+ "}".

(** [const char*] view of a string: it ends at the first NUL byte. *)
Fixpoint c_str (s : string) : string :=
  match s with
  | EmptyString => EmptyString
  | String c s' =>
      if bool_decide (c = "000"%char) then EmptyString else String c (c_str s')
  end.

(** [std::set<std::string>]: strictly increasing for [operator<], which
    compares byte by byte. *)
Fixpoint set_insert (x : string) (s : list string) : list string :=
  match s with
  | [] => [x]
  | y :: s' =>
      match String.compare x y with
      | Lt => x :: y :: s'
      | Eq => y :: s'
      | Gt => y :: set_insert x s'
      end
  end.

(** The set built from a vector of buffered lines, and the text obtained by
    streaming its elements in iteration order. *)
Definition uniqueTraces (traceVector : list string) : list string :=
  foldl (λ s t, set_insert t s) [] traceVector.

Definition combinedTrace (traces : list string) : string :=
  foldr String.append "" traces.

(** [operator<] on [std::string]. *)
Definition string_lt (x y : string) : Prop := String.compare x y = Lt.

Inductive DebugMode : Type :=
| OUTPUT_ONLY
| OUTPUT_AND_TRACES
| OUTPUT_AND_TRACES_WITH_DETAILS.

Inductive Mutex : Type := m_outputMutex | m_tracerMutex.

(** What a member function did with the mutexes: those it acquired, in
    order, and the result of the body run under them. *)
Record Guarded (A : Type) : Type := MkGuarded {
  acquired : list Mutex;
  body : A
}.
Arguments MkGuarded {A} acquired body.
Arguments acquired {A} g.
Arguments body {A} g.

Definition lock_guard {A : Type} (m : Mutex) (b : A) : Guarded A :=
  MkGuarded [m] b.

Definition unguarded {A : Type} (b : A) : Guarded A := MkGuarded [] b.

Section RuntimePolicy.
Context `{Rxbk}.

(** The fields of [router::RuntimePolicy]. *)
Record RuntimePolicy : Type := MkRuntimePolicy {
  m_asset : string;
  m_spController : option Controller;
  m_environment : option Environment;
  m_output : string;
  m_history : list (string * string);
  m_traceBuffer : gmap string (list string)
}.

Definition set_spController (c : option Controller) (p : RuntimePolicy) :=
  MkRuntimePolicy (m_asset p) c (m_environment p) (m_output p)
    (m_history p) (m_traceBuffer p).

Definition set_environment (e : option Environment) (p : RuntimePolicy) :=
  MkRuntimePolicy (m_asset p) (m_spController p) e (m_output p)
    (m_history p) (m_traceBuffer p).

Definition set_output (o : string) (p : RuntimePolicy) :=
  MkRuntimePolicy (m_asset p) (m_spController p) (m_environment p) o
    (m_history p) (m_traceBuffer p).

Definition set_history (h : list (string * string)) (p : RuntimePolicy) :=
  MkRuntimePolicy (m_asset p) (m_spController p) (m_environment p)
    (m_output p) h (m_traceBuffer p).

Definition set_traceBuffer (b : gmap string (list string))
    (p : RuntimePolicy) :=
  MkRuntimePolicy (m_asset p) (m_spController p) (m_environment p)
    (m_output p) (m_history p) b.

(** Modelled from the spec: the constructor is declared in
    [router/runtimePolicy.hpp], which is not among the sources.  A policy
    is created unbuilt with its name, an empty output and empty buffers. *)
Definition newRuntimePolicy (asset : string) : RuntimePolicy :=
  MkRuntimePolicy asset None None "" [] ∅.

(** Code that may throw, over the object's fields. *)
Definition M (A : Type) : Type := RuntimePolicy → outcome A * RuntimePolicy.

#[local] Instance M_ret : MRet M := λ A a p, (Returns a, p).

#[local] Instance M_bind : MBind M := λ A B f m p,
  match m p with
  | (Returns a, p') => f a p'
  | (Throws e, p') => (Throws e, p')
  end.

Definition call {A : Type} (o : outcome A) : M A := λ p, (o, p).

Definition assign (f : RuntimePolicy → RuntimePolicy) : M unit :=
  λ p, (Returns tt, f p).

(** The subscriber of [subscribeToOutput], run on each terminal event. *)
Definition onOutput (event : Result Event) (p : RuntimePolicy)
    : RuntimePolicy :=
  set_output (event_prettyStr (payload event) +:+ String "010" "") p.

Definition subscribeToOutput_callback (event : Result Event)
    (p : RuntimePolicy) : Guarded RuntimePolicy :=
  lock_guard m_outputMutex (onOutput event p).

(** Both wiring functions go through [m_spController]; [build] calls them
    after it has assigned the pointer (a null pointer is left alone). *)
Definition subscribeToOutput : M unit :=
  λ p, match m_spController p with
       | Some c =>
           match getOutput_subscribe c with
           | Returns c' => (Returns tt, set_spController (Some c') p)
           | Throws e => (Throws e, p)
           end
       | None => (Returns tt, p)
       end.

(** The subscriber of [listenAllTrace], run on each trace line. *)
Definition onTrace (trace : string) (p : RuntimePolicy) : RuntimePolicy :=
  let p1 :=
    match regex_search opRegex trace with
    | Some m => set_history (m_history p ++ [(str m 1, str m 2)]) p
    | None => p
    end in
  match regex_search opRegexVerbose trace with
  | Some matchVerbose =>
      let key := str matchVerbose 1 in
      set_traceBuffer
        (<[key := default [] (m_traceBuffer p1 !! key) ++ [trace]]>
           (m_traceBuffer p1)) p1
  | None => p1
  end.

Definition listenAllTrace_callback (trace : string) (p : RuntimePolicy)
    : Guarded RuntimePolicy :=
  lock_guard m_tracerMutex (onTrace trace p).

Definition listenAllTrace : M unit :=
  λ p, match m_spController p with
       | Some c =>
           match listenOnAllTrace c with
           | Returns c' => (Returns tt, set_spController (Some c') p)
           | Throws e => (Throws e, p)
           end
       | None => (Returns tt, p)
       end.

Definition build (builder : Builder) (p : RuntimePolicy)
    : option Error * RuntimePolicy :=
  match m_spController p with
  | Some _ =>
      (Some (MkError ("Policy '" +:+ m_asset p +:+ "' is already built")), p)
  | None =>
      let try_block : M unit :=
        env ← call (buildPolicy builder (m_asset p));
        assign (set_environment (Some env));;
        c ← call (buildRxPipeline env);
        assign (set_spController (Some c));;
        subscribeToOutput;;
        listenAllTrace in
      match try_block p with
      | (Returns _, p') => (None, p')
      | (Throws e, p') =>
          (Some (MkError ("Error building policy [" +:+ m_asset p +:+ "]: "
                            +:+ e)), p')
      end
  end.

Definition processEvent (event : Event) (p : RuntimePolicy)
    : option Error * RuntimePolicy :=
  match m_spController p with
  | None =>
      (Some (MkError ("Policy '" +:+ m_asset p +:+ "' is not built")), p)
  | Some c =>
      (None, set_spController (Some (ingestEvent c (makeSuccess event))) p)
  end.

(** One turn of the loop of [getData] over [m_history]: the trace document
    and the buffer of verbose lines before and after. *)
Definition getData_step (debugMode : DebugMode)
    (acc : Json * gmap string (list string)) (entry : string * string)
    : Json * gmap string (list string) :=
  let '(trace, buffer) := acc in
  let '(asset, condition) := entry in
  match debugMode with
  | OUTPUT_AND_TRACES_WITH_DETAILS =>
      match buffer !! asset with
      | Some traceVector =>
          (setString (combinedTrace (uniqueTraces traceVector))
             ("/" +:+ asset) trace,
           <[asset := []]> buffer)
      | None => (trace, buffer)
      end
  | OUTPUT_AND_TRACES =>
      (setString (c_str condition) ("/" +:+ c_str asset) trace, buffer)
  | OUTPUT_ONLY => (trace, buffer)
  end.

Definition getData (debugMode : DebugMode) (p : RuntimePolicy)
    : (string * string) * RuntimePolicy :=
  let '(trace, buffer) :=
    foldl (getData_step debugMode) (∅, m_traceBuffer p) (m_history p) in
  let p1 := set_traceBuffer buffer p in
  let p2 := if bool_decide (m_history p1 ≠ []) then set_history [] p1 else p1 in
  ((m_output p2, prettyStr trace), p2).

(** [getData] as the source has it: no [std::lock_guard] in its body. *)
Definition getData_guarded (debugMode : DebugMode) (p : RuntimePolicy)
    : Guarded ((string * string) * RuntimePolicy) :=
  unguarded (getData debugMode p).

(** The trace document of a render, before it is printed. *)
Definition getData_trace (debugMode : DebugMode) (p : RuntimePolicy) : Json :=
  (foldl (getData_step debugMode) (∅, m_traceBuffer p) (m_history p)).1.

End RuntimePolicy.

Arguments RuntimePolicy {_}.
Arguments MkRuntimePolicy {_} _ _ _ _ _ _.

(** ** Histories of calls

    What can happen to a policy object between its construction and now:
    the three public member functions and the two subscriber callbacks the
    controller runs. *)
Section Calls.
Context `{Rxbk}.

Inductive Call : Type :=
| CallBuild (builder : Builder)
| CallProcessEvent (event : Event)
| CallGetData (debugMode : DebugMode)
| DeliverOutput (event : Result Event)
| DeliverTrace (trace : string).

Definition call_step (p : RuntimePolicy) (c : Call) : RuntimePolicy :=
  match c with
  | CallBuild builder => (build builder p).2
  | CallProcessEvent event => (processEvent event p).2
  | CallGetData debugMode => (getData debugMode p).2
  | DeliverOutput event => onOutput event p
  | DeliverTrace trace => onTrace trace p
  end.

Definition run_calls (cs : list Call) (p : RuntimePolicy) : RuntimePolicy :=
  foldl call_step p cs.

(** The calls by which the controller's observables reach the object. *)
Definition is_delivery (c : Call) : bool :=
  match c with
  | DeliverOutput _ | DeliverTrace _ => true
  | CallBuild _ | CallProcessEvent _ | CallGetData _ => false
  end.

(** The mutexes a call acquires, in order. *)
Definition call_locks (p : RuntimePolicy) (c : Call) : list Mutex :=
  match c with
  | CallBuild _ => []
  | CallProcessEvent _ => []
  | CallGetData debugMode => acquired (getData_guarded debugMode p)
  | DeliverOutput event => acquired (subscribeToOutput_callback event p)
  | DeliverTrace trace => acquired (listenAllTrace_callback trace p)
  end.
End Calls.

(** ** A concrete set of collaborators

    A builder is a table from policy names to pipelines or failures; a
    pipeline says whether the controller can be made from it and whether its
    two observables accept a subscriber; the controller counts its
    subscribers and queues what it is handed. *)
Module Scenario.

Record pipeline : Type := MkPipeline {
  expression : string;
  constructible : bool;
  output_accepts : bool;
  traces_accept : bool
}.

Record controller : Type := MkController {
  running : pipeline;
  output_subscribers : nat;
  trace_subscribers : nat;
  queue : list (Result string)
}.

Definition builder : Type := string → outcome pipeline.

Definition make_controller (e : pipeline) : outcome controller :=
  if constructible e then Returns (MkController e 0 0 [])
  else Throws ("cannot build pipeline " +:+ expression e).

Definition subscribe_output (c : controller) : outcome controller :=
  if output_accepts (running c) then
    Returns (MkController (running c) (S (output_subscribers c))
               (trace_subscribers c) (queue c))
  else Throws "output observable rejected the subscriber".

Definition subscribe_traces (c : controller) : outcome controller :=
  if traces_accept (running c) then
    Returns (MkController (running c) (output_subscribers c)
               (S (trace_subscribers c)) (queue c))
  else Throws "trace observable rejected the subscriber".

Definition ingest (c : controller) (r : Result string) : controller :=
  MkController (running c) (output_subscribers c) (trace_subscribers c)
    (queue c ++ [r]).

Definition rxbk : Rxbk := {|
  Environment := pipeline;
  Controller := controller;
  Event := string;
  Builder := builder;
  buildPolicy := λ b name, b name;
  buildRxPipeline := make_controller;
  getOutput_subscribe := subscribe_output;
  listenOnAllTrace := subscribe_traces;
  ingestEvent := ingest;
  event_prettyStr := λ e, e
|}.

(** A builder that knows one sound policy, one whose trace observable
    throws on subscription, and fails on every other name. *)
Definition good_pipeline : pipeline := MkPipeline "decoders" true true true.
Definition untraceable_pipeline : pipeline :=
  MkPipeline "decoders" true true false.

Definition catalog : builder := λ name,
  if bool_decide (name = "policy/x/0") then Returns good_pipeline
  else if bool_decide (name = "policy/y/0") then Returns untraceable_pipeline
  else Throws ("policy not found: " +:+ name).

Definition fresh (name : string) : @RuntimePolicy rxbk :=
  @newRuntimePolicy rxbk name.

(** The object after a successful [build]. *)
Definition built : @RuntimePolicy rxbk :=
  @run_calls rxbk [@CallBuild rxbk catalog] (fresh "policy/x/0").

(** Trace lines as the operators of a pipeline write them, and two lines
    that carry a condition-shaped text after something else. *)
Definition condition_line : string := "[decoder/d/0] [condition]:matched".
Definition verbose_line : string := "[decoder/d/0] hit".
Definition prefixed_line : string := "> [decoder/d/0] [condition]:matched".
Definition quoting_line : string :=
  "[decoder/a/0] forwarded [decoder/b/0] [condition]:failure".

(** Two events went through the pipeline before anything was rendered. *)
Definition two_events : @RuntimePolicy rxbk :=
  @run_calls rxbk
    [@DeliverTrace rxbk condition_line; @DeliverTrace rxbk verbose_line;
     @DeliverTrace rxbk condition_line; @DeliverTrace rxbk verbose_line]
    built.

(** One event went through it. *)
Definition one_event : @RuntimePolicy rxbk :=
  @run_calls rxbk
    [@DeliverTrace rxbk condition_line; @DeliverTrace rxbk verbose_line;
     @DeliverTrace rxbk verbose_line]
    built.

(** The prefixed line was delivered twice. *)
Definition two_prefixed : @RuntimePolicy rxbk :=
  @run_calls rxbk
    [@DeliverTrace rxbk prefixed_line; @DeliverTrace rxbk prefixed_line]
    built.

End Scenario.

(** How many entries of the condition log name [asset]. *)
Definition occurrences (asset : string) (history : list (string * string))
    : nat :=
  length (filter (λ e, e.1 = asset) history).

(** ** What the sink makes of one line

    The pair the condition pattern yields for a line, and the key under
    which the verbose pattern files it. *)
Definition condition_record (trace : string) : option (string * string) :=
  (λ m, (str m 1, str m 2)) <$> regex_search opRegex trace.

Definition verbose_key (trace : string) : option string :=
  (λ m, str m 1) <$> regex_search opRegexVerbose trace.

(** Every character of a text passes a test. *)
Fixpoint all_chars (f : ascii → bool) (s : string) : bool :=
  match s with
  | EmptyString => true
  | String c s' => f c && all_chars f s'
  end.

Definition is_rbracket (c : ascii) : bool := bool_decide (c = "]"%char).

Definition is_nul (c : ascii) : bool := bool_decide (c = "000"%char).

(** Two buffers of verbose lines hold the same set of lines under every
    asset. *)
Definition same_line_sets (b1 b2 : gmap string (list string)) : Prop :=
  ∀ asset,
    option_Forall2 (λ l1 l2 : list string, ∀ line, line ∈ l1 ↔ line ∈ l2)
      (b1 !! asset) (b2 !! asset).

Section CallLists.
Context `{Rxbk}.

Definition is_output_delivery (c : Call) : bool :=
  match c with
  | DeliverOutput _ => true
  | _ => false
  end.

Definition deliver_traces (lines : list string) : list Call :=
  DeliverTrace <$> lines.

Definition process_events (events : list Event) : list Call :=
  CallProcessEvent <$> events.

End CallLists.

(** ** The converter between YAML and JSON documents ([yml::Converter])

    A YAML node as [YAML::Node] reports it through [Type()], [Tag()] and
    [Scalar()]; a JSON value as [rapidjson::Value] reports it through its
    [Is...] predicates.  A JSON number that is not a double is the integer
    it holds. *)
#[warnings="-register-all"] Inductive YamlNode : Type :=
| YUndefined
| YNull
| YScalar (tag text : string)
| YSequence (items : list YamlNode)
| YMap (pairs : list (YamlNode * YamlNode)).

#[warnings="-register-all"] Inductive JsonValue (D : Type) : Type :=
| JNull
| JBool (b : bool)
| JInt (i : Z)
| JDouble (d : D)
| JString (s : string)
| JArray (items : list (JsonValue D))
| JObject (members : list (string * JsonValue D)).
Arguments JNull {D}.
Arguments JBool {D} b.
Arguments JInt {D} i.
Arguments JDouble {D} d.
Arguments JString {D} s.
Arguments JArray {D} items.
Arguments JObject {D} members.

(** What the converter takes from yaml-cpp and from its header: the type of
    doubles, the tag of quoted scalars, the conversions of a scalar's text
    ([YAML::convert<T>::decode]), [as<std::string>()] on a node ([None]
    when it throws), and the texts yaml-cpp writes for a number or a
    boolean assigned to a node. *)
Class YamlCpp : Type := {
  Double : Type;
  QUOTED_TAG : string;
  decode_int : string → option Z;
  decode_double : string → option Double;
  decode_bool : string → option bool;
  as_string : YamlNode → option string;
  encode_int : Z → string;
  encode_double : Double → string;
  encode_bool : bool → string
}.

(** [rapidjson::Value::IsInt]: the number is an integer that fits [int]. *)
Definition IsInt (i : Z) : bool :=
  bool_decide (-2147483648 ≤ i ≤ 2147483647)%Z.

(** The text of a scalar node, as [convert<std::string>::decode] reads
    it. *)
Definition scalar_text (n : YamlNode) : option string :=
  match n with
  | YScalar _ text => Some text
  | _ => None
  end.

(** [node[key] = value] on the pairs of a map node: the value of the pair
    whose key reads [key] is replaced, a new pair is added at the end
    otherwise. *)
Fixpoint assign_member (key : string) (value : YamlNode)
    (pairs : list (YamlNode * YamlNode)) : list (YamlNode * YamlNode) :=
  match pairs with
  | [] => [(YScalar "" key, value)]
  | (k, v) :: pairs' =>
      if bool_decide (scalar_text k = Some key) then (k, value) :: pairs'
      else (k, v) :: assign_member key value pairs'
  end.

(** The keys of the pairs are scalars made from a text. *)
Definition plain_keys (pairs : list (YamlNode * YamlNode)) : Prop :=
  Forall (λ kv, ∃ text, kv.1 = YScalar "" text) pairs.

(** The keys of all maps of a document, those of nested maps included. *)
Fixpoint map_keys (root : YamlNode) : list YamlNode :=
  match root with
  | YSequence items => items ≫= map_keys
  | YMap pairs => pairs ≫= (λ kv, kv.1 :: map_keys kv.2)
  | _ => []
  end.

Section Converter.
Context `{YamlCpp}.

(** [Converter::parseScalar(const YAML::Node&, allocator)] *)
Definition parseScalar (tag text : string) : JsonValue Double :=
  if bool_decide (QUOTED_TAG = tag) then JString (c_str text)
  else match decode_int text with
       | Some i => JInt i
       | None =>
           match decode_double text with
           | Some d => JDouble d
           | None =>
               match decode_bool text with
               | Some b => JBool b
               | None => JString text
               end
           end
       end.

(** [Converter::parseScalar(const rapidjson::Value&)], on a value that is
    neither an object nor an array. *)
Definition parseScalar_json (node : JsonValue Double) : YamlNode :=
  match node with
  | JString s => YScalar "" (c_str s)
  | JInt i => if IsInt i then YScalar "" (encode_int i) else YNull
  | JDouble d => YScalar "" (encode_double d)
  | JBool b => YScalar "" (encode_bool b)
  | _ => YNull
  end.

(** [Converter::jsonToYaml].  The node starts out null; the first member
    assigned makes it a map, the first element pushed makes it a
    sequence. *)
Fixpoint jsonToYaml (value : JsonValue Double) : YamlNode :=
  match value with
  | JObject members =>
      match
        foldl (λ node m, assign_member (c_str m.1) (jsonToYaml m.2) node)
          [] members
      with
      | [] => YNull
      | pairs => YMap pairs
      end
  | JArray items =>
      match jsonToYaml <$> items with
      | [] => YNull
      | nodes => YSequence nodes
      end
  | _ => parseScalar_json value
  end.

(** [Converter::yamlToJson]; [None] when a key conversion throws. *)
Fixpoint yamlToJson (root : YamlNode) : option (JsonValue Double) :=
  match root with
  | YNull => Some JNull
  | YScalar tag text => Some (parseScalar tag text)
  | YSequence items => JArray <$> mapM yamlToJson items
  | YMap pairs =>
      JObject <$>
        mapM (λ kv : YamlNode * YamlNode,
                key ← as_string kv.1;
                value ← yamlToJson kv.2;
                Some (c_str key, value)) pairs
  | YUndefined => Some JNull
  end.

End Converter.

(** A yaml-cpp that reads and writes integers in decimal and booleans as
    [true] and [false], has no doubles, and whose [as<std::string>()]
    accepts scalars and null nodes. *)
Module YamlScenario.

Definition yaml_cpp : YamlCpp := {|
  Double := Empty_set;
  QUOTED_TAG := "!";
  decode_int := λ s, Z.of_int <$> NilZero.int_of_string s;
  decode_double := λ _, None;
  decode_bool := λ s,
    if bool_decide (s = "true") then Some true
    else if bool_decide (s = "false") then Some false else None;
  as_string := λ n,
    match n with
    | YScalar _ text => Some text
    | YNull => Some "null"
    | _ => None
    end;
  encode_int := λ i, NilZero.string_of_int (Z.to_int i);
  encode_double := λ d, match d with end;
  encode_bool := λ b, if b then "true" else "false"
|}.

(** A document with a sequence used as a key, two levels down. *)
Definition keyed_by_sequence : YamlNode :=
  YSequence
    [YScalar "?" "1";
     YMap [(YScalar "?" "name", YScalar "!" "x");
           (YScalar "?" "nested",
            YMap [(YSequence [YScalar "?" "a"], YNull)])]].

(** An object with a repeated member name. *)
Definition repeated_member : JsonValue (@Double yaml_cpp) :=
  JObject [("a", JInt 1); ("a", JString "last"); ("b", JBool true)].

End YamlScenario.

(** * Properties *)

(** ** Life cycle: [build] and [processEvent] *)
Section Lifecycle.
Context `{Rxbk}.

Lemma build_asset (b : Builder) (p : RuntimePolicy) :
  m_asset (build b p).2 = m_asset p.
Proof.
  unfold build. destruct (m_spController p) eqn:Hc; [done|].
  unfold mbind, M_bind, call, assign, subscribeToOutput, listenAllTrace.
  destruct (buildPolicy b (m_asset p)) as [env|e]; [|done].
  destruct (buildRxPipeline env) as [c|e]; [|done]. simpl.
  destruct (getOutput_subscribe c) as [c1|e]; [|done]. simpl.
  destruct (listenOnAllTrace c1) as [c2|e]; done.
Qed.

Lemma processEvent_asset (e : Event) (p : RuntimePolicy) :
  m_asset (processEvent e p).2 = m_asset p.
Proof. unfold processEvent. by destruct (m_spController p). Qed.

Lemma getData_asset (mode : DebugMode) (p : RuntimePolicy) :
  m_asset (getData mode p).2 = m_asset p.
Proof.
  unfold getData.
  destruct (foldl _ _ _) as [trace buffer]. simpl. by case_bool_decide.
Qed.

Lemma onTrace_asset (trace : string) (p : RuntimePolicy) :
  m_asset (onTrace trace p) = m_asset p.
Proof.
  unfold onTrace.
  destruct (regex_search opRegex trace), (regex_search opRegexVerbose trace);
    done.
Qed.

Lemma call_step_asset (p : RuntimePolicy) (c : Call) :
  m_asset (call_step p c) = m_asset p.
Proof.
  destruct c; simpl;
    auto using build_asset, processEvent_asset, getData_asset, onTrace_asset.
Qed.

(** The policy name given at construction is never changed. *)
Lemma run_calls_asset (cs : list Call) (p : RuntimePolicy) :
  m_asset (run_calls cs p) = m_asset p.
Proof.
  revert p. induction cs as [|c cs IH]; intros p; [done|].
  unfold run_calls in *. simpl. by rewrite IH, call_step_asset.
Qed.

(** C4, as amended: on every policy object that holds a controller,
    whatever calls it went through since it was constructed with name
    [id], [build] returns the error "Policy '<id>' is already built" (the
    message starts with a capital P), leaves every field as it was, and
    [processEvent] still hands the event to that same controller. *)
Theorem build_on_built_rejected (id : string) (cs : list Call)
    (b : Builder) (e : Event) (c : Controller) :
  m_spController (run_calls cs (newRuntimePolicy id)) = Some c →
  build b (run_calls cs (newRuntimePolicy id))
    = (Some (MkError ("Policy '" +:+ id +:+ "' is already built")),
       run_calls cs (newRuntimePolicy id))
  ∧ processEvent e (build b (run_calls cs (newRuntimePolicy id))).2
    = (None,
       set_spController (Some (ingestEvent c (makeSuccess e)))
         (run_calls cs (newRuntimePolicy id))).
Proof.
  intros Hc.
  assert (build b (run_calls cs (newRuntimePolicy id))
    = (Some (MkError ("Policy '" +:+ id +:+ "' is already built")),
       run_calls cs (newRuntimePolicy id))) as Hb.
  { unfold build. rewrite Hc, run_calls_asset. done. }
  split; [done|]. rewrite Hb. simpl. unfold processEvent. by rewrite Hc.
Qed.

(** C5, as amended: on every policy object without a controller, whatever
    calls it went through since it was constructed with name [id],
    [processEvent] returns the error "Policy '<id>' is not built" (the
    message starts with a capital P) and leaves every field as it was: no
    controller is created and none receives the event. *)
Theorem processEvent_unbuilt_rejected (id : string) (cs : list Call)
    (e : Event) :
  m_spController (run_calls cs (newRuntimePolicy id)) = None →
  processEvent e (run_calls cs (newRuntimePolicy id))
    = (Some (MkError ("Policy '" +:+ id +:+ "' is not built")),
       run_calls cs (newRuntimePolicy id))
  ∧ m_spController (processEvent e (run_calls cs (newRuntimePolicy id))).2
    = None.
Proof.
  intros Hc. unfold processEvent. rewrite Hc, run_calls_asset. done.
Qed.

(** A failure of the builder leaves the object unbuilt. *)
Lemma build_builder_throws (b : Builder) (p : RuntimePolicy) (x : exception) :
  m_spController p = None →
  buildPolicy b (m_asset p) = Throws x →
  build b p
    = (Some (MkError ("Error building policy [" +:+ m_asset p +:+ "]: " +:+ x)),
       p).
Proof.
  intros Hc Hb. unfold build. rewrite Hc.
  unfold mbind, M_bind, call. by rewrite Hb.
Qed.

(** A failure of the controller construction leaves the object without a
    controller, so that [processEvent] is still refused. *)
Lemma build_controller_throws (b : Builder) (p : RuntimePolicy)
    (env : Environment) (x : exception) (e : Event) :
  m_spController p = None →
  buildPolicy b (m_asset p) = Returns env →
  buildRxPipeline env = Throws x →
  (build b p).1
    = Some (MkError ("Error building policy [" +:+ m_asset p +:+ "]: " +:+ x))
  ∧ m_spController (build b p).2 = None
  ∧ (processEvent e (build b p).2).1
    = Some (MkError ("Policy '" +:+ m_asset p +:+ "' is not built")).
Proof.
  intros Hc Hb Hx. unfold build. rewrite Hc.
  unfold mbind, M_bind, call, assign. rewrite Hb. simpl. rewrite Hx. simpl.
  unfold processEvent. simpl. by rewrite Hc.
Qed.

(** A failure of the wiring comes after the controller was stored: the
    error is returned and the controller stays. *)
Lemma build_wiring_throws (b : Builder) (p : RuntimePolicy)
    (env : Environment) (c c1 : Controller) (x : exception) :
  m_spController p = None →
  buildPolicy b (m_asset p) = Returns env →
  buildRxPipeline env = Returns c →
  getOutput_subscribe c = Returns c1 →
  listenOnAllTrace c1 = Throws x →
  (build b p).1
    = Some (MkError ("Error building policy [" +:+ m_asset p +:+ "]: " +:+ x))
  ∧ m_spController (build b p).2 = Some c1.
Proof.
  intros Hc Hb Hp Ho Ht. unfold build. rewrite Hc.
  unfold mbind, M_bind, call, assign, subscribeToOutput, listenAllTrace.
  rewrite Hb. simpl. rewrite Hp. simpl. rewrite Ho. simpl. by rewrite Ht.
Qed.

End Lifecycle.

(** ** [std::set<std::string>] as a strictly increasing list *)
Section StringSet.

Lemma string_lt_strict (x y : string) :
  string_lt x y ↔ strict String.le x y.
Proof.
  unfold string_lt, strict, String.le, String.leb.
  rewrite (String.compare_antisym y x).
  destruct (String.compare x y); simpl; intuition congruence.
Qed.

Lemma string_lt_trans (x y z : string) :
  string_lt x y → string_lt y z → string_lt x z.
Proof.
  rewrite !string_lt_strict. intros Hxy Hyz. by trans y.
Qed.

Lemma string_lt_irrefl (x : string) : ¬ string_lt x x.
Proof. rewrite string_lt_strict. apply irreflexivity, _. Qed.

Lemma elem_of_set_insert (x y : string) (s : list string) :
  y ∈ set_insert x s ↔ y = x ∨ y ∈ s.
Proof.
  induction s as [|z s IH]; simpl.
  - rewrite list_elem_of_singleton, elem_of_nil. tauto.
  - destruct (String.compare x z) eqn:Hc.
    + apply String.compare_eq_iff in Hc as ->.
      rewrite elem_of_cons. tauto.
    + rewrite !elem_of_cons. tauto.
    + rewrite !elem_of_cons, IH. tauto.
Qed.

Lemma set_insert_sorted (x : string) (s : list string) :
  StronglySorted string_lt s → StronglySorted string_lt (set_insert x s).
Proof.
  induction 1 as [|z s Hs IH Hz]; simpl.
  - repeat constructor.
  - destruct (String.compare x z) eqn:Hc.
    + by constructor.
    + constructor; [by constructor|]. constructor; [done|].
      eapply Forall_impl; [exact Hz|]. intros w Hw.
      by apply (string_lt_trans x z w).
    + constructor; [done|]. apply Forall_forall. intros w Hw.
      apply elem_of_set_insert in Hw as [->|Hw].
      * unfold string_lt. rewrite String.compare_antisym, Hc. done.
      * rewrite Forall_forall in Hz. by apply Hz.
Qed.

Lemma uniqueTraces_snoc (l : list string) (x : string) :
  uniqueTraces (l ++ [x]) = set_insert x (uniqueTraces l).
Proof. unfold uniqueTraces. by rewrite foldl_snoc. Qed.

(** The set holds each distinct buffered line once... *)
Lemma elem_of_uniqueTraces (l : list string) (x : string) :
  x ∈ uniqueTraces l ↔ x ∈ l.
Proof.
  induction l as [|y l IH] using rev_ind.
  - done.
  - rewrite uniqueTraces_snoc, elem_of_set_insert, IH, elem_of_app,
      list_elem_of_singleton. tauto.
Qed.

(** ... and iterates in increasing byte-wise lexicographic order. *)
Lemma uniqueTraces_sorted (l : list string) :
  StronglySorted string_lt (uniqueTraces l).
Proof.
  induction l as [|y l IH] using rev_ind.
  - constructor.
  - rewrite uniqueTraces_snoc. by apply set_insert_sorted.
Qed.

Lemma uniqueTraces_NoDup (l : list string) : NoDup (uniqueTraces l).
Proof.
  generalize (uniqueTraces_sorted l).
  induction 1 as [|z s Hs IH Hz]; constructor; [|done].
  intros Hin. rewrite Forall_forall in Hz.
  by apply (string_lt_irrefl z), Hz.
Qed.

End StringSet.

(** ** Render: [getData] *)
Section Render.
Context `{Rxbk}.

Lemma prettyStr_empty : prettyStr ∅ = "{}".
Proof. unfold prettyStr. by rewrite map_to_list_empty. Qed.

Lemma getData_output (mode : DebugMode) (p : RuntimePolicy) :
  (getData mode p).1.1 = m_output p
  ∧ m_output (getData mode p).2 = m_output p.
Proof.
  unfold getData. destruct (foldl _ _ _) as [trace buffer]. simpl.
  by case_bool_decide.
Qed.

Lemma getData_history (mode : DebugMode) (p : RuntimePolicy) :
  m_history (getData mode p).2 = [].
Proof.
  unfold getData. destruct (foldl _ _ _) as [trace buffer]. simpl.
  case_bool_decide as Hh; simpl; [done|].
  destruct (m_history p); [done|]. by destruct Hh.
Qed.

(** C6: whatever the buffers hold and whatever the debug mode,
    [OUTPUT_ONLY] included, the condition log is empty when [getData]
    returns. *)
Theorem getData_clears_history (mode : DebugMode) (p : RuntimePolicy) :
  m_history (getData mode p).2 = [].
Proof. apply getData_history. Qed.

Lemma build_buffers (b : Builder) (p : RuntimePolicy) :
  m_output (build b p).2 = m_output p
  ∧ m_history (build b p).2 = m_history p
  ∧ m_traceBuffer (build b p).2 = m_traceBuffer p.
Proof.
  unfold build. destruct (m_spController p) eqn:Hc; [done|].
  unfold mbind, M_bind, call, assign, subscribeToOutput, listenAllTrace.
  destruct (buildPolicy b (m_asset p)) as [env|e]; [|done].
  destruct (buildRxPipeline env) as [c|e]; [|done]. simpl.
  destruct (getOutput_subscribe c) as [c1|e]; [|done]. simpl.
  destruct (listenOnAllTrace c1) as [c2|e]; done.
Qed.

Lemma processEvent_buffers (e : Event) (p : RuntimePolicy) :
  m_output (processEvent e p).2 = m_output p
  ∧ m_history (processEvent e p).2 = m_history p
  ∧ m_traceBuffer (processEvent e p).2 = m_traceBuffer p.
Proof. unfold processEvent. by destruct (m_spController p). Qed.

(** Calls other than deliveries keep the output string, and keep an empty
    condition log empty. *)
Lemma run_calls_quiet (cs : list Call) (p : RuntimePolicy) :
  Forall (λ c, is_delivery c = false) cs →
  m_history p = [] →
  m_output (run_calls cs p) = m_output p ∧ m_history (run_calls cs p) = [].
Proof.
  intros Hcs. revert p.
  induction Hcs as [|c cs Hc Hcs IH]; intros p Hh; [done|].
  unfold run_calls in *. cbn [foldl].
  destruct c as [b|e|mode|ev|t]; try done; cbn [call_step].
  - destruct (build_buffers b p) as (Ho & Hh' & _).
    destruct (IH (build b p).2) as [IH1 IH2]; [congruence|].
    by rewrite IH1, IH2, Ho.
  - destruct (processEvent_buffers e p) as (Ho & Hh' & _).
    destruct (IH (processEvent e p).2) as [IH1 IH2]; [congruence|].
    by rewrite IH1, IH2, Ho.
  - destruct (IH (getData mode p).2) as [IH1 IH2]; [apply getData_history|].
    by rewrite IH1, IH2, (proj2 (getData_output mode p)).
Qed.

(** C8: when a detailed render is followed by a second one, with only
    calls that are not deliveries of traces or outputs in between, the
    second returns the same output string as the first, and its trace
    document prints as the empty object. *)
Theorem getData_twice_detailed (p : RuntimePolicy) (cs : list Call) :
  Forall (λ c, is_delivery c = false) cs →
  (getData OUTPUT_AND_TRACES_WITH_DETAILS
     (run_calls cs (getData OUTPUT_AND_TRACES_WITH_DETAILS p).2)).1.1
    = (getData OUTPUT_AND_TRACES_WITH_DETAILS p).1.1
  ∧ (getData OUTPUT_AND_TRACES_WITH_DETAILS
       (run_calls cs (getData OUTPUT_AND_TRACES_WITH_DETAILS p).2)).1.2
    = "{}".
Proof.
  intros Hcs.
  destruct (run_calls_quiet cs (getData OUTPUT_AND_TRACES_WITH_DETAILS p).2 Hcs)
    as [Ho Hh]; [apply getData_history|].
  split.
  - rewrite !(proj1 (getData_output _ _)), Ho.
    apply (proj2 (getData_output _ _)).
  - unfold getData at 1. rewrite Hh. simpl. apply prettyStr_empty.
Qed.

(** C9, what the code does: [getData] acquires no mutex at all, in any
    mode and on any object, while each of the two subscriber callbacks
    takes its own. *)
Theorem getData_acquires_no_mutex (mode : DebugMode) (p : RuntimePolicy)
    (event : Result Event) (trace : string) :
  acquired (getData_guarded mode p) = []
  ∧ acquired (getData_guarded mode p) ≠ [m_outputMutex; m_tracerMutex]
  ∧ acquired (subscribeToOutput_callback event p) = [m_outputMutex]
  ∧ acquired (listenAllTrace_callback trace p) = [m_tracerMutex].
Proof. done. Qed.

(** *** The loop over the condition log in detailed mode *)

Lemma path_inj (a b : string) : "/" +:+ a = "/" +:+ b → a = b.
Proof. apply (inj (String.append "/")). Qed.

Lemma detailed_step_other (asset : string) (acc : Json * gmap string (list string))
    (entry : string * string) :
  entry.1 ≠ asset →
  (getData_step OUTPUT_AND_TRACES_WITH_DETAILS acc entry).1 !! ("/" +:+ asset)
    = acc.1 !! ("/" +:+ asset)
  ∧ (getData_step OUTPUT_AND_TRACES_WITH_DETAILS acc entry).2 !! asset
    = acc.2 !! asset.
Proof.
  destruct acc as [trace buffer], entry as [a c]. simpl. intros Hne.
  destruct (buffer !! a) as [v|]; simpl; [|done].
  unfold setString. split.
  - apply lookup_insert_ne. intros Heq. by apply path_inj in Heq.
  - by apply lookup_insert_ne.
Qed.

Lemma detailed_step_same (asset : string) (trace : Json)
    (buffer : gmap string (list string)) (condition : string)
    (lines : list string) :
  buffer !! asset = Some lines →
  getData_step OUTPUT_AND_TRACES_WITH_DETAILS (trace, buffer) (asset, condition)
    = (<["/" +:+ asset := combinedTrace (uniqueTraces lines)]> trace,
       <[asset := []]> buffer).
Proof. intros Hb. simpl. by rewrite Hb. Qed.

(** What the loop leaves at an asset whose bucket is there: nothing new
    when the log does not name it, the joined set of its lines when the
    log names it once, the empty text when the log names it again. *)
Lemma detailed_loop (asset : string) (history : list (string * string))
    (trace : Json) (buffer : gmap string (list string)) (lines : list string) :
  buffer !! asset = Some lines →
  (foldl (getData_step OUTPUT_AND_TRACES_WITH_DETAILS) (trace, buffer) history).1
      !! ("/" +:+ asset)
    = match occurrences asset history with
      | 0 => trace !! ("/" +:+ asset)
      | 1 => Some (combinedTrace (uniqueTraces lines))
      | _ => Some ""
      end
  ∧ (foldl (getData_step OUTPUT_AND_TRACES_WITH_DETAILS) (trace, buffer) history).2
      !! asset
    = Some (match occurrences asset history with 0 => lines | _ => [] end).
Proof.
  revert trace buffer lines.
  induction history as [|[a c] history IH]; intros trace buffer lines Hb.
  - done.
  - cbn [foldl]. unfold occurrences in *.
    destruct (decide (a = asset)) as [->|Hne].
    + rewrite filter_cons_True by done.
      rewrite (detailed_step_same _ _ _ _ _ Hb).
      destruct (IH (<["/" +:+ asset := combinedTrace (uniqueTraces lines)]> trace)
                  (<[asset := []]> buffer) []) as [IH1 IH2].
      { apply lookup_insert_eq. }
      rewrite IH1, IH2. simpl length.
      destruct (length (filter (λ e, e.1 = asset) history)) as [|[|n]].
      * split; [apply lookup_insert_eq|done].
      * done.
      * done.
    + rewrite filter_cons_False by done.
      pose proof (detailed_step_other asset (trace, buffer) (a, c) Hne)
        as [Ht Hbuf].
      destruct (getData_step OUTPUT_AND_TRACES_WITH_DETAILS (trace, buffer) (a, c))
        as [trace' buffer'] eqn:Hstep.
      simpl in Ht, Hbuf. rewrite Hb in Hbuf.
      destruct (IH trace' buffer' lines Hbuf) as [IH1 IH2].
      rewrite IH1, IH2, Ht. done.
Qed.

Lemma getData_traceBuffer (mode : DebugMode) (p : RuntimePolicy) :
  m_traceBuffer (getData mode p).2
    = (foldl (getData_step mode) (∅, m_traceBuffer p) (m_history p)).2.
Proof.
  unfold getData. destruct (foldl _ _ _) as [trace buffer]. simpl.
  by case_bool_decide.
Qed.

Lemma getData_prettyStr (mode : DebugMode) (p : RuntimePolicy) :
  (getData mode p).1.2 = prettyStr (getData_trace mode p).
Proof.
  unfold getData, getData_trace. destruct (foldl _ _ _) as [trace buffer].
  done.
Qed.

(** C7, as amended: in a detailed render, an asset whose bucket of
    verbose lines is there and which the drained condition log names is
    left with an emptied bucket; when the log names it exactly once, the
    value rendered at "/" + asset is the text of its buffered lines, each
    distinct line once, joined in increasing byte-wise lexicographic
    order. *)
Theorem getData_detailed_once (p : RuntimePolicy) (asset : string)
    (lines : list string) :
  m_traceBuffer p !! asset = Some lines →
  0 < occurrences asset (m_history p) →
  m_traceBuffer (getData OUTPUT_AND_TRACES_WITH_DETAILS p).2 !! asset = Some []
  ∧ (occurrences asset (m_history p) = 1 →
     getString ("/" +:+ asset) (getData_trace OUTPUT_AND_TRACES_WITH_DETAILS p)
       = Some (combinedTrace (uniqueTraces lines))
     ∧ StronglySorted string_lt (uniqueTraces lines)
     ∧ (∀ line, line ∈ uniqueTraces lines ↔ line ∈ lines)).
Proof.
  intros Hb Hocc.
  destruct (detailed_loop asset (m_history p) ∅ (m_traceBuffer p) lines Hb)
    as [Ht Hbuf].
  split.
  - rewrite getData_traceBuffer, Hbuf.
    destruct (occurrences asset (m_history p)); [lia|done].
  - intros Hone. unfold getString, getData_trace. rewrite Ht, Hone.
    split; [done|]. split; [apply uniqueTraces_sorted|].
    intros line. apply elem_of_uniqueTraces.
Qed.

(** C10, as amended: in a detailed render, when the drained condition log
    names an asset two or more times and the bucket of verbose lines of
    that asset is there, the value rendered at "/" + asset is the empty
    string, and the bucket is left empty. *)
Theorem getData_detailed_repeated (p : RuntimePolicy) (asset : string)
    (lines : list string) :
  m_traceBuffer p !! asset = Some lines →
  2 ≤ occurrences asset (m_history p) →
  getString ("/" +:+ asset) (getData_trace OUTPUT_AND_TRACES_WITH_DETAILS p)
    = Some ""
  ∧ m_traceBuffer (getData OUTPUT_AND_TRACES_WITH_DETAILS p).2 !! asset
    = Some [].
Proof.
  intros Hb Hocc.
  destruct (detailed_loop asset (m_history p) ∅ (m_traceBuffer p) lines Hb)
    as [Ht Hbuf].
  unfold getString, getData_trace. rewrite getData_traceBuffer, Ht, Hbuf.
  destruct (occurrences asset (m_history p)) as [|[|n]]; [lia|lia|done].
Qed.

(** Without a bucket the loop writes nothing for the asset. *)
Lemma detailed_loop_no_bucket (asset : string)
    (history : list (string * string)) (trace : Json)
    (buffer : gmap string (list string)) :
  buffer !! asset = None →
  (foldl (getData_step OUTPUT_AND_TRACES_WITH_DETAILS) (trace, buffer) history).1
      !! ("/" +:+ asset)
    = trace !! ("/" +:+ asset)
  ∧ (foldl (getData_step OUTPUT_AND_TRACES_WITH_DETAILS) (trace, buffer) history).2
      !! asset = None.
Proof.
  revert trace buffer.
  induction history as [|[a c] history IH]; intros trace buffer Hb; [done|].
  cbn [foldl]. destruct (decide (a = asset)) as [->|Hne].
  - simpl. rewrite Hb. by apply IH.
  - pose proof (detailed_step_other asset (trace, buffer) (a, c) Hne)
      as [Ht Hbuf].
    destruct (getData_step OUTPUT_AND_TRACES_WITH_DETAILS (trace, buffer) (a, c))
      as [trace' buffer'] eqn:Hstep.
    simpl in Ht, Hbuf. rewrite Hb in Hbuf.
    destruct (IH trace' buffer' Hbuf) as [IH1 IH2]. by rewrite IH1, IH2, Ht.
Qed.

End Render.

(** ** The properties on the concrete collaborators *)
Section OnScenario.
Import Scenario.
#[local] Existing Instance rxbk.

(** C3 at an input where the code departs from it: the builder and the
    controller construction succeed and the trace observable throws on
    subscription.  [build] returns the build error, yet the object keeps
    the controller with the output subscriber wired; [processEvent] then
    queues the event instead of answering "not built", and a new [build]
    answers "already built". *)
Theorem build_wiring_failure_keeps_controller :
  (build catalog (fresh "policy/y/0")).1
    = Some (MkError
        "Error building policy [policy/y/0]: trace observable rejected the subscriber")
  ∧ m_spController (build catalog (fresh "policy/y/0")).2
    = Some (MkController untraceable_pipeline 1 0 [])
  ∧ processEvent "event" (build catalog (fresh "policy/y/0")).2
    = (None,
       set_spController
         (Some (MkController untraceable_pipeline 1 0 [makeSuccess "event"]))
         (build catalog (fresh "policy/y/0")).2)
  ∧ (build catalog (build catalog (fresh "policy/y/0")).2).1
    = Some (MkError "Policy 'policy/y/0' is already built").
Proof. repeat split. Qed.

Lemma build_on_built_rejected_witness :
  m_spController built = Some (MkController good_pipeline 1 1 [])
  ∧ build catalog built
    = (Some (MkError "Policy 'policy/x/0' is already built"), built)
  ∧ processEvent "event" (build catalog built).2
    = (None,
       set_spController
         (Some (MkController good_pipeline 1 1 [makeSuccess "event"])) built).
Proof.
  split; [reflexivity|].
  apply (build_on_built_rejected (H := rxbk) "policy/x/0"
           [@CallBuild rxbk catalog] catalog "event"
           (MkController good_pipeline 1 1 [])).
  reflexivity.
Defined.

(** The message of the second [build] is not the lower-case one. *)
Lemma build_on_built_message_not_lowercase :
  m_spController built = Some (MkController good_pipeline 1 1 [])
  ∧ (build catalog built).1
    ≠ Some (MkError "policy 'policy/x/0' is already built").
Proof. split; [reflexivity|]. vm_compute. discriminate. Qed.

Lemma processEvent_unbuilt_rejected_witness :
  m_spController (fresh "policy/x/0") = None
  ∧ processEvent "event" (fresh "policy/x/0")
    = (Some (MkError "Policy 'policy/x/0' is not built"), fresh "policy/x/0")
  ∧ m_spController (processEvent "event" (fresh "policy/x/0")).2 = None.
Proof.
  split; [reflexivity|].
  apply (processEvent_unbuilt_rejected (H := rxbk) "policy/x/0" [] "event").
  reflexivity.
Defined.

(** The message of [processEvent] before [build] is not the lower-case
    one. *)
Lemma processEvent_unbuilt_message_not_lowercase :
  m_spController (fresh "policy/x/0") = None
  ∧ (processEvent "event" (fresh "policy/x/0")).1
    ≠ Some (MkError "policy 'policy/x/0' is not built").
Proof. split; [reflexivity|]. vm_compute. discriminate. Qed.

Lemma getData_twice_detailed_witness :
  Forall (λ c, @is_delivery rxbk c = false)
    [@CallProcessEvent rxbk "event"; @CallBuild rxbk catalog]
  ∧ (getData OUTPUT_AND_TRACES_WITH_DETAILS
       (run_calls [@CallProcessEvent rxbk "event"; @CallBuild rxbk catalog]
          (getData OUTPUT_AND_TRACES_WITH_DETAILS one_event).2)).1.1
    = (getData OUTPUT_AND_TRACES_WITH_DETAILS one_event).1.1
  ∧ (getData OUTPUT_AND_TRACES_WITH_DETAILS
       (run_calls [@CallProcessEvent rxbk "event"; @CallBuild rxbk catalog]
          (getData OUTPUT_AND_TRACES_WITH_DETAILS one_event).2)).1.2
    = "{}".
Proof.
  assert (Forall (λ c, @is_delivery rxbk c = false)
            [@CallProcessEvent rxbk "event"; @CallBuild rxbk catalog]) as Hq.
  { repeat constructor. }
  split; [exact Hq|].
  apply (getData_twice_detailed (H := rxbk) one_event
           [@CallProcessEvent rxbk "event"; @CallBuild rxbk catalog] Hq).
Defined.

Lemma getData_detailed_once_witness :
  m_traceBuffer one_event !! "decoder/d/0"
    = Some [condition_line; verbose_line; verbose_line]
  ∧ 0 < occurrences "decoder/d/0" (m_history one_event)
  ∧ occurrences "decoder/d/0" (m_history one_event) = 1
  ∧ m_traceBuffer (getData OUTPUT_AND_TRACES_WITH_DETAILS one_event).2
      !! "decoder/d/0" = Some []
  ∧ getString "/decoder/d/0"
      (getData_trace OUTPUT_AND_TRACES_WITH_DETAILS one_event)
    = Some "[decoder/d/0] [condition]:matched[decoder/d/0] hit".
Proof.
  assert (0 < occurrences "decoder/d/0" (m_history one_event)) as Hpos.
  { vm_compute. lia. }
  split; [reflexivity|]. split; [exact Hpos|]. split; [reflexivity|].
  destruct (getData_detailed_once (H := rxbk) one_event "decoder/d/0"
              [condition_line; verbose_line; verbose_line] eq_refl Hpos)
    as [Hcleared Honce].
  split; [exact Hcleared|]. exact (proj1 (Honce eq_refl)).
Defined.

(** After two events the asset is named twice in the drained log; its
    bucket is there, and the rendered value is not the text of its
    lines. *)
Lemma detailed_value_lost_on_repetition :
  m_traceBuffer two_events !! "decoder/d/0"
    = Some [condition_line; verbose_line; condition_line; verbose_line]
  ∧ "decoder/d/0" ∈ (m_history two_events).*1
  ∧ combinedTrace
      (uniqueTraces [condition_line; verbose_line; condition_line; verbose_line])
    = "[decoder/d/0] [condition]:matched[decoder/d/0] hit"
  ∧ getString "/decoder/d/0"
      (getData_trace OUTPUT_AND_TRACES_WITH_DETAILS two_events)
    ≠ Some (combinedTrace
              (uniqueTraces
                 [condition_line; verbose_line; condition_line; verbose_line])).
Proof.
  split; [reflexivity|]. split; [vm_compute; apply list_elem_of_here|].
  split; [reflexivity|]. vm_compute. discriminate.
Qed.

Lemma getData_detailed_repeated_witness :
  m_traceBuffer two_events !! "decoder/d/0"
    = Some [condition_line; verbose_line; condition_line; verbose_line]
  ∧ 2 ≤ occurrences "decoder/d/0" (m_history two_events)
  ∧ getString "/decoder/d/0"
      (getData_trace OUTPUT_AND_TRACES_WITH_DETAILS two_events) = Some ""
  ∧ m_traceBuffer (getData OUTPUT_AND_TRACES_WITH_DETAILS two_events).2
      !! "decoder/d/0" = Some [].
Proof.
  split; [reflexivity|]. split; [vm_compute; lia|].
  apply (getData_detailed_repeated two_events "decoder/d/0"
           [condition_line; verbose_line; condition_line; verbose_line]).
  - reflexivity.
  - vm_compute. lia.
Defined.

(** The drained log names the asset twice, no bucket was ever made for
    it, and the render writes no value at its key: the trace document is
    the empty object. *)
Lemma detailed_repeated_without_bucket :
  occurrences "decoder/d/0" (m_history two_prefixed) = 2
  ∧ m_traceBuffer two_prefixed !! "decoder/d/0" = None
  ∧ getString "/decoder/d/0"
      (getData_trace OUTPUT_AND_TRACES_WITH_DETAILS two_prefixed)
    ≠ Some ""
  ∧ (getData OUTPUT_AND_TRACES_WITH_DETAILS two_prefixed).1.2 = "{}".
Proof.
  split; [reflexivity|]. split; [reflexivity|].
  split; [vm_compute; discriminate|reflexivity].
Qed.

End OnScenario.

(** ** The backtracking matcher on the trace patterns *)
Section Patterns.

Lemma span_fst_empty (cs : charset) (s : string) :
  (span cs s).1 = "" → (span cs s).2 = s.
Proof. destruct s as [|c s]; simpl; [done|]. by destruct (cs_match cs c). Qed.

Lemma span_fst_nonempty (cs : charset) (s : string) :
  (span cs s).1 ≠ "" → ∃ c s', s = String c s' ∧ cs_match cs c = true.
Proof.
  destruct s as [|c s]; simpl; [done|].
  destruct (cs_match cs c) eqn:Hc; [|done]. eauto.
Qed.

Lemma app_cons (c : ascii) (a b : string) :
  String c a +:+ b = String c (a +:+ b).
Proof. reflexivity. Qed.

Lemma app_nil (b : string) : "" +:+ b = b.
Proof. reflexivity. Qed.

Lemma span_app (cs : charset) (s : string) :
  (span cs s).1 +:+ (span cs s).2 = s.
Proof.
  induction s as [|c s IH]; simpl; [done|].
  destruct (cs_match cs c); simpl; [|done]. by rewrite app_cons, IH.
Qed.

Lemma take_str_app (a b : string) : take_str (String.length a) (a +:+ b) = a.
Proof.
  induction a as [|c a IH]; [by destruct b|].
  rewrite app_cons. simpl. by rewrite IH.
Qed.

Lemma length_app (a b : string) :
  String.length (a +:+ b) = String.length a + String.length b.
Proof.
  induction a as [|c a IH]; [done|]. rewrite app_cons. simpl. by rewrite IH.
Qed.

(** The text a [+] loop went over is the scanned prefix. *)
Lemma consumed_span (cs : charset) (s : string) :
  consumed s (span cs s).2 = (span cs s).1.
Proof.
  unfold consumed. rewrite <-(span_app cs s) at 1 3.
  rewrite length_app.
  replace (String.length (span cs s).1 + String.length (span cs s).2
           - String.length (span cs s).2) with (String.length (span cs s).1)
    by lia.
  apply take_str_app.
Qed.

(** A greedy loop whose continuation accepts everything stops after the
    longest run. *)
Lemma plus_loop_total (cs : charset) (k : cont) (cp : list (nat * string))
    (s : string) :
  (∀ m, is_Some (k m)) →
  plus_loop cs k cp s
    = if is_empty (span cs s).1 then None
      else k (MState false (span cs s).2 cp).
Proof.
  intros Hk. induction s as [|c s IH]; simpl; [done|].
  destruct (cs_match cs c) eqn:Hc; simpl; [|done]. rewrite IH.
  destruct (is_empty (span cs s).1) eqn:He.
  - rewrite span_fst_empty; [done|]. by destruct (span cs s).1.
  - by destruct (Hk (MState false (span cs s).2 cp)) as [m ->].
Qed.

(** So does one whose continuation refuses to start on a character of the
    loop's class: giving a character back cannot help. *)
Lemma plus_loop_blocked (cs : charset) (k : cont) (cp : list (nat * string))
    (s : string) :
  (∀ c s', cs_match cs c = true → k (MState false (String c s') cp) = None) →
  plus_loop cs k cp s
    = if is_empty (span cs s).1 then None
      else k (MState false (span cs s).2 cp).
Proof.
  intros Hk. induction s as [|c s IH]; simpl; [done|].
  destruct (cs_match cs c) eqn:Hc; simpl; [|done]. rewrite IH.
  destruct (is_empty (span cs s).1) eqn:He.
  - rewrite span_fst_empty; [done|]. by destruct (span cs s).1.
  - destruct (k (MState false (span cs s).2 cp)) eqn:Hks; [done|].
    destruct (span_fst_nonempty cs s) as (d & s' & -> & Hd).
    { intros Hnil. by rewrite Hnil in He. }
    by apply Hk.
Qed.

Lemma rmatch_rlit (t : string) (k : cont) (b : bool) (s : string)
    (cp : list (nat * string)) :
  rmatch (rlit t) k (MState b s cp)
    = match strip_prefix t s with
      | Some s' => k (MState (b && is_empty t) s' cp)
      | None => None
      end.
Proof.
  revert b s. induction t as [|c t IH]; intros b s; simpl.
  - by rewrite andb_true_r.
  - destruct s as [|d s]; [done|]. rewrite andb_false_r.
    case_bool_decide; [|done]. rewrite IH. simpl.
    by destruct (strip_prefix t s).
Qed.

Lemma rmatch_seq (r1 r2 : regex) (k : cont) (m : mstate) :
  rmatch (RSeq r1 r2) k m = rmatch r1 (rmatch r2 k) m.
Proof. reflexivity. Qed.

Lemma not_rbracket_spec (c : ascii) :
  cs_match not_rbracket c = negb (bool_decide (c = "]"%char)).
Proof.
  simpl. f_equal. apply bool_decide_ext.
  by rewrite list_elem_of_singleton.
Qed.

(** The second group and what follows it. *)
Lemma rmatch_text_group (eol b : bool) (s : string) (cp : list (nat * string)) :
  rmatch (rcat ([RGroup 2 (RPlus CsAny)] ++ (if eol then [REol] else [])))
      Some (MState b s cp)
    = if is_empty (span CsAny s).1 then None
      else if eol && negb (is_empty (span CsAny s).2) then None
      else Some (MState false (span CsAny s).2 ((2, (span CsAny s).1) :: cp)).
Proof.
  destruct eol; cbn [rcat foldr app rmatch rest caps at_begin].
  - rewrite plus_loop_blocked.
    + destruct (is_empty (span CsAny s).1); [done|]. simpl.
      rewrite consumed_span. by destruct (span CsAny s).2.
    + done.
  - rewrite plus_loop_total.
    + destruct (is_empty (span CsAny s).1); [done|]. simpl.
      by rewrite consumed_span.
    + intros m. by eexists.
Qed.

(** The first group, the separator and what follows them. *)
Lemma rmatch_asset_group (sep' : string) (r : regex) (b : bool) (s : string)
    (cp : list (nat * string)) :
  rmatch (RSeq (RGroup 1 (RPlus not_rbracket))
            (RSeq (rlit (String "]" sep')) r)) Some (MState b s cp)
    = if is_empty (span not_rbracket s).1 then None
      else match strip_prefix (String "]" sep') (span not_rbracket s).2 with
           | Some s3 =>
               rmatch r Some
                 (MState false s3 ((1, (span not_rbracket s).1) :: cp))
           | None => None
           end.
Proof.
  cbn [rmatch rest caps at_begin]. rewrite plus_loop_blocked.
  - destruct (is_empty (span not_rbracket s).1); [done|].
    cbn [rest caps at_begin]. rewrite consumed_span.
    change (rmatch (RSeq (RSet (CsLit "]")) (rlit sep')))
      with (rmatch (rlit (String "]" sep'))).
    rewrite rmatch_rlit. simpl is_empty. rewrite andb_false_r. reflexivity.
  - intros c s' Hc. rewrite not_rbracket_spec in Hc.
    cbn [rest caps at_begin]. rewrite rmatch_rlit. cbn [strip_prefix].
    by destruct (bool_decide (c = "]"%char)).
Qed.

(** On a trace pattern the backtracking matcher and the scanner agree. *)
Lemma rmatch_trace_pattern (bol eol b : bool) (sep' s : string) :
  rmatch (trace_pattern bol (String "]" sep') eol) Some (MState b s [])
    = trace_shape bol (String "]" sep') eol b s.
Proof.
  unfold trace_pattern, trace_shape.
  assert (∀ b',
    rmatch (rcat ([rlit "["; RGroup 1 (RPlus not_rbracket);
                   rlit (String "]" sep'); RGroup 2 (RPlus CsAny)]
                  ++ (if eol then [REol] else []))) Some (MState b' s [])
    = match s with
      | String c s1 =>
          if bool_decide (c = "["%char) then
            if is_empty (span not_rbracket s1).1 then None
            else match strip_prefix (String "]" sep') (span not_rbracket s1).2 with
                 | Some s3 =>
                     if is_empty (span CsAny s3).1 then None
                     else if eol && negb (is_empty (span CsAny s3).2) then None
                     else Some (MState false (span CsAny s3).2
                                  [(2, (span CsAny s3).1);
                                   (1, (span not_rbracket s1).1)])
                 | None => None
                 end
          else None
      | EmptyString => None
      end) as Hbody.
  { intros b'. destruct s as [|c s1]; [done|].
    change (rcat ([rlit "["; RGroup 1 (RPlus not_rbracket);
                   rlit (String "]" sep'); RGroup 2 (RPlus CsAny)]
                  ++ (if eol then [REol] else [])))
      with (RSeq (rlit "[")
              (RSeq (RGroup 1 (RPlus not_rbracket))
                 (RSeq (rlit (String "]" sep'))
                    (rcat ([RGroup 2 (RPlus CsAny)]
                           ++ (if eol then [REol] else [])))))).
    rewrite rmatch_seq, rmatch_rlit.
    change (strip_prefix "[" (String c s1))
      with (if bool_decide (c = "["%char) then Some s1 else None).
    case_bool_decide; [|done].
    rewrite rmatch_asset_group.
    destruct (is_empty (span not_rbracket s1).1); [done|].
    destruct (strip_prefix _ _) as [s3|]; [|done].
    apply rmatch_text_group. }
  destruct bol; simpl.
  - destruct b; simpl; [|done]. apply (Hbody true).
  - apply (Hbody b).
Qed.

End Patterns.

(** ** The trace sink: the subscriber of [listenAllTrace] *)
Section TraceSink.
Context `{Rxbk}.

(** Both patterns of the source, and both of the specification, are well
    formed. *)
Lemma patterns_parsed :
  parse_regex opPatternTrace = Some opRegex
  ∧ parse_regex opPatternTraceVerbose = Some opRegexVerbose
  ∧ parse_regex spec_condition_pattern_text = Some spec_condition_regex
  ∧ parse_regex spec_verbose_pattern_text = Some spec_verbose_regex.
Proof. repeat split. Qed.

(** Each of them runs as the trace pattern with its separator and its
    assertions. *)
Lemma opRegex_pattern (m : mstate) :
  rmatch opRegex Some m
    = rmatch (trace_pattern false "] [condition]:" false) Some m.
Proof. reflexivity. Qed.

Lemma opRegexVerbose_pattern (m : mstate) :
  rmatch opRegexVerbose Some m = rmatch (trace_pattern true "] " false) Some m.
Proof. reflexivity. Qed.

Lemma spec_condition_pattern (m : mstate) :
  rmatch spec_condition_regex Some m
    = rmatch (trace_pattern true "] [condition]:" true) Some m.
Proof. reflexivity. Qed.

Lemma spec_verbose_pattern (m : mstate) :
  rmatch spec_verbose_regex Some m
    = rmatch (trace_pattern true "] " true) Some m.
Proof. reflexivity. Qed.

Lemma search_from_ext (r1 r2 : regex) (b : bool) (s : string) :
  (∀ m, rmatch r1 Some m = rmatch r2 Some m) →
  search_from r1 b s = search_from r2 b s.
Proof.
  intros Hr. revert b. induction s as [|c s IH]; intros b; cbn [search_from];
    rewrite Hr; [done|]. by rewrite IH.
Qed.

Lemma regex_search_ext (r1 r2 : regex) (s : string) :
  (∀ m, rmatch r1 Some m = rmatch r2 Some m) →
  regex_search r1 s = regex_search r2 s.
Proof. apply search_from_ext. Qed.

(** A pattern that starts with [^] matches at the first character or
    nowhere. *)
Lemma search_from_anchored (sep' : string) (eol : bool) (s : string) :
  search_from (trace_pattern true (String "]" sep') eol) false s = None.
Proof.
  induction s as [|c s IH]; cbn [search_from];
    by rewrite rmatch_trace_pattern.
Qed.

Lemma regex_search_anchored (sep' : string) (eol : bool) (s : string) :
  regex_search (trace_pattern true (String "]" sep') eol) s
    = trace_shape true (String "]" sep') eol true s.
Proof.
  unfold regex_search. destruct s as [|c s]; cbn [search_from];
    rewrite rmatch_trace_pattern;
    destruct (trace_shape _ _ _ _ _); try done.
  apply search_from_anchored.
Qed.

Lemma regex_search_at_start (r : regex) (s : string) (m : mstate) :
  rmatch r Some (MState true s []) = Some m → regex_search r s = Some m.
Proof.
  intros Hm. unfold regex_search. destruct s; cbn [search_from]; by rewrite Hm.
Qed.

Lemma strip_prefix_Some (t s r : string) :
  strip_prefix t s = Some r → s = t +:+ r.
Proof.
  revert s. induction t as [|c t IH]; intros s; simpl.
  - by intros [= ->].
  - destruct s as [|d s]; [done|]. case_bool_decide as Hd; [|done].
    intros Hs. rewrite app_cons, <-(IH _ Hs). by rewrite Hd.
Qed.

Lemma strip_prefix_app (t r : string) : strip_prefix t (t +:+ r) = Some r.
Proof.
  induction t as [|c t IH]; [done|]. rewrite app_cons. simpl.
  by rewrite bool_decide_eq_true_2.
Qed.

Lemma onTrace_history (trace : string) (p : RuntimePolicy) :
  m_history (onTrace trace p)
    = match regex_search opRegex trace with
      | Some m => m_history p ++ [(str m 1, str m 2)]
      | None => m_history p
      end.
Proof.
  unfold onTrace.
  by destruct (regex_search opRegex trace), (regex_search opRegexVerbose trace).
Qed.

Lemma onTrace_traceBuffer (trace : string) (p : RuntimePolicy) :
  m_traceBuffer (onTrace trace p)
    = match regex_search opRegexVerbose trace with
      | Some m =>
          <[str m 1 := default [] (m_traceBuffer p !! str m 1) ++ [trace]]>
            (m_traceBuffer p)
      | None => m_traceBuffer p
      end.
Proof.
  unfold onTrace.
  by destruct (regex_search opRegex trace), (regex_search opRegexVerbose trace).
Qed.

(** A line on which neither pattern of the source is found changes
    nothing. *)
Lemma onTrace_dropped (trace : string) (p : RuntimePolicy) :
  regex_search opRegex trace = None →
  regex_search opRegexVerbose trace = None →
  onTrace trace p = p.
Proof. intros H1 H2. unfold onTrace. rewrite H1, H2. by destruct p. Qed.

(** A line that matches the condition pattern anchored at its first
    character leaves both records: the pair of its two groups at the end
    of the condition log, and the whole line at the end of the bucket of
    its first group. *)
Lemma onTrace_anchored_condition (trace : string) (m : mstate)
    (p : RuntimePolicy) :
  regex_search spec_condition_regex trace = Some m →
  m_history (onTrace trace p) = m_history p ++ [(str m 1, str m 2)]
  ∧ m_traceBuffer (onTrace trace p)
    = <[str m 1 := default [] (m_traceBuffer p !! str m 1) ++ [trace]]>
        (m_traceBuffer p).
Proof.
  rewrite (regex_search_ext _ _ _ spec_condition_pattern),
    regex_search_anchored.
  intros Hm. rewrite onTrace_history, onTrace_traceBuffer.
  assert (regex_search opRegex trace = Some m) as ->.
  { apply regex_search_at_start.
    rewrite opRegex_pattern, rmatch_trace_pattern.
    revert Hm. unfold trace_shape. simpl andb.
    destruct trace as [|c s1]; [done|]. case_bool_decide; [|done].
    destruct (is_empty (span not_rbracket s1).1); [done|].
    destruct (strip_prefix _ _) as [s3|]; [|done].
    destruct (is_empty (span CsAny s3).1); [done|].
    by destruct (is_empty (span CsAny s3).2). }
  split; [done|].
  rewrite (regex_search_ext _ _ _ opRegexVerbose_pattern),
    regex_search_anchored.
  revert Hm. unfold trace_shape. simpl andb.
  destruct trace as [|c s1]; [done|]. case_bool_decide; [|done].
  destruct (is_empty (span not_rbracket s1).1); [done|].
  destruct (strip_prefix _ _) as [s3|] eqn:Hs3; [|done].
  apply strip_prefix_Some in Hs3.
  change ("] [condition]:" +:+ s3) with ("] " +:+ ("[condition]:" +:+ s3)) in Hs3.
  rewrite Hs3, strip_prefix_app.
  destruct (is_empty (span CsAny s3).1); [done|].
  destruct (is_empty (span CsAny s3).2); [|done].
  simpl. by intros [= <-].
Qed.

(** A line that matches the verbose pattern as the specification writes it
    is appended whole to the bucket of its first group. *)
Lemma onTrace_anchored_verbose (trace : string) (m : mstate)
    (p : RuntimePolicy) :
  regex_search spec_verbose_regex trace = Some m →
  m_traceBuffer (onTrace trace p)
    = <[str m 1 := default [] (m_traceBuffer p !! str m 1) ++ [trace]]>
        (m_traceBuffer p).
Proof.
  rewrite (regex_search_ext _ _ _ spec_verbose_pattern), regex_search_anchored.
  intros Hm. rewrite onTrace_traceBuffer.
  rewrite (regex_search_ext _ _ _ opRegexVerbose_pattern),
    regex_search_anchored.
  revert Hm. unfold trace_shape. simpl andb.
  destruct trace as [|c s1]; [done|]. case_bool_decide; [|done].
  destruct (is_empty (span not_rbracket s1).1); [done|].
  destruct (strip_prefix _ _) as [s3|]; [|done].
  destruct (is_empty (span CsAny s3).1); [done|].
  destruct (is_empty (span CsAny s3).2); [|done].
  simpl. by intros [= <-].
Qed.

(** C1 at an input where the code departs from it: a verbose line of one
    asset that quotes a condition of another.  The condition pattern
    anchored at the first character does not match the line, yet the sink
    appends a condition record for the quoted asset. *)
Theorem onTrace_records_interior_condition (p : RuntimePolicy) :
  regex_search spec_condition_regex Scenario.quoting_line = None
  ∧ m_history (onTrace Scenario.quoting_line p)
    = m_history p ++ [("decoder/b/0", "failure")].
Proof.
  split; [by vm_compute|]. rewrite onTrace_history.
  by replace (regex_search opRegex Scenario.quoting_line)
    with (Some (MState false "" [(2, "failure"); (1, "decoder/b/0")]))
    by (by vm_compute).
Qed.

(** C2 at an input where the code departs from it: a line that matches
    neither the condition nor the verbose pattern as the specification
    anchors them.  The sink leaves the verbose buckets alone and still
    appends a condition record: one record, not both and not none. *)
Theorem onTrace_records_unanchored_line (p : RuntimePolicy) :
  regex_search spec_condition_regex Scenario.prefixed_line = None
  ∧ regex_search spec_verbose_regex Scenario.prefixed_line = None
  ∧ regex_search opRegexVerbose Scenario.prefixed_line = None
  ∧ m_history (onTrace Scenario.prefixed_line p)
    = m_history p ++ [("decoder/d/0", "matched")]
  ∧ m_traceBuffer (onTrace Scenario.prefixed_line p) = m_traceBuffer p.
Proof.
  split; [by vm_compute|]. split; [by vm_compute|]. split; [by vm_compute|].
  rewrite onTrace_history, onTrace_traceBuffer.
  replace (regex_search opRegex Scenario.prefixed_line)
    with (Some (MState false "" [(2, "matched"); (1, "decoder/d/0")]))
    by (by vm_compute).
  by replace (regex_search opRegexVerbose Scenario.prefixed_line)
    with (@None mstate) by (by vm_compute).
Qed.

End TraceSink.

(** ** More on the life cycle *)
Section LifecycleFacts.
Context `{Rxbk}.

Lemma getData_frame (mode : DebugMode) (p : RuntimePolicy) :
  m_spController (getData mode p).2 = m_spController p
  ∧ m_environment (getData mode p).2 = m_environment p.
Proof.
  unfold getData. destruct (foldl _ _ _) as [trace buffer]. simpl.
  by case_bool_decide.
Qed.

Lemma onTrace_frame (trace : string) (p : RuntimePolicy) :
  m_spController (onTrace trace p) = m_spController p
  ∧ m_environment (onTrace trace p) = m_environment p
  ∧ m_output (onTrace trace p) = m_output p.
Proof.
  unfold onTrace.
  by destruct (regex_search opRegex trace), (regex_search opRegexVerbose trace).
Qed.

(** [build] answers without an error exactly when the object had no
    controller and the builder, the controller construction and both
    subscriptions returned; the object then holds the built policy and the
    controller as the second subscription left it, and nothing else of it
    has changed. *)
Theorem build_succeeds_iff (b : Builder) (p : RuntimePolicy) :
  (build b p).1 = None ↔
  m_spController p = None
  ∧ ∃ env c c1 c2,
      buildPolicy b (m_asset p) = Returns env
      ∧ buildRxPipeline env = Returns c
      ∧ getOutput_subscribe c = Returns c1
      ∧ listenOnAllTrace c1 = Returns c2
      ∧ (build b p).2 = set_spController (Some c2) (set_environment (Some env) p).
Proof.
  unfold build. destruct (m_spController p) as [c0|] eqn:Hc.
  { split; [done|]. by intros [? _]. }
  unfold mbind, M_bind, call, assign, subscribeToOutput, listenAllTrace.
  destruct (buildPolicy b (m_asset p)) as [env|x] eqn:Hb; simpl.
  2: { split; [done|]. by intros (_ & ? & ? & ? & ? & ? & _). }
  destruct (buildRxPipeline env) as [c|x] eqn:Hp; simpl.
  2: { split; [done|]. intros (_ & ? & ? & ? & ? & [= <-] & ? & _). congruence. }
  destruct (getOutput_subscribe c) as [c1|x] eqn:Ho; simpl.
  2: { split; [done|].
       intros (_ & ? & ? & ? & ? & [= <-] & ? & ? & _). congruence. }
  destruct (listenOnAllTrace c1) as [c2|x] eqn:Ht; simpl.
  2: { split; [done|].
       intros (_ & ? & ? & ? & ? & [= <-] & ? & ? & ? & _). congruence. }
  split; [|done]. intros _. split; [done|]. by exists env, c, c1, c2.
Qed.

Lemma call_step_built (p : RuntimePolicy) (k : Call) :
  is_Some (m_spController p) →
  is_Some (m_spController (call_step p k))
  ∧ m_environment (call_step p k) = m_environment p.
Proof.
  intros [c Hc]. destruct k as [b|e|mode|ev|t]; cbn [call_step].
  - unfold build. rewrite Hc. simpl. by rewrite Hc.
  - unfold processEvent. rewrite Hc. by simpl.
  - destruct (getData_frame mode p) as [-> ->]. by rewrite Hc.
  - simpl. by rewrite Hc.
  - destruct (onTrace_frame t p) as (-> & -> & _). by rewrite Hc.
Qed.

(** Once an object holds a controller, no sequence of calls and deliveries
    takes it away, and none replaces the policy the builder returned. *)
Theorem built_is_permanent (cs : list Call) (p : RuntimePolicy) :
  is_Some (m_spController p) →
  is_Some (m_spController (run_calls cs p))
  ∧ m_environment (run_calls cs p) = m_environment p.
Proof.
  revert p. induction cs as [|k cs IH]; intros p Hp; [done|].
  unfold run_calls in *. cbn [foldl].
  destruct (call_step_built p k Hp) as [Hk He].
  destruct (IH _ Hk) as [IH1 IH2]. by rewrite IH2, He.
Qed.

(** On an object that holds a controller, a run of [processEvent] calls
    hands the events to it one by one in call order, each wrapped as a
    success, and changes nothing else. *)
Theorem processEvents_in_order (events : list Event) (p : RuntimePolicy)
    (c : Controller) :
  m_spController p = Some c →
  run_calls (process_events events) p
    = set_spController
        (Some (foldl (λ c' e, ingestEvent c' (makeSuccess e)) c events)) p.
Proof.
  revert p c. induction events as [|e events IH]; intros p c Hc.
  - destruct p. simpl in *. by rewrite Hc.
  - unfold run_calls, process_events in *. cbn [fmap list_fmap foldl call_step].
    unfold processEvent at 1. rewrite Hc. cbn [snd].
    rewrite (IH _ (ingestEvent c (makeSuccess e))); [|done]. done.
Qed.

Lemma call_step_keeps_output (p : RuntimePolicy) (k : Call) :
  is_output_delivery k = false → m_output (call_step p k) = m_output p.
Proof.
  destruct k as [b|e|mode|ev|t]; cbn [call_step]; intros Hk; try done.
  - apply build_buffers.
  - apply processEvent_buffers.
  - apply getData_output.
  - apply onTrace_frame.
Qed.

(** The output string is the text of the last terminal event followed by a
    line feed: whatever else is called or delivered after it, short of
    another terminal event, a render returns exactly that. *)
Theorem output_last_writer_wins (event : Result Event) (cs : list Call)
    (mode : DebugMode) (p : RuntimePolicy) :
  Forall (λ k, is_output_delivery k = false) cs →
  (getData mode (run_calls cs (onOutput event p))).1.1
    = event_prettyStr (payload event) +:+ String "010" "".
Proof.
  intros Hcs. rewrite (proj1 (getData_output _ _)).
  assert (∀ q, m_output (run_calls cs q) = m_output q) as ->; [|done].
  induction Hcs as [|k cs Hk Hcs IH]; intros q; [done|].
  unfold run_calls in *. cbn [foldl]. by rewrite IH, call_step_keeps_output.
Qed.

(** As long as the controller has delivered nothing, a render in any mode
    returns the empty output and the empty trace document, whatever was
    built or submitted. *)
Theorem render_before_any_delivery (id : string) (cs : list Call)
    (mode : DebugMode) :
  Forall (λ k, is_delivery k = false) cs →
  (getData mode (run_calls cs (newRuntimePolicy id))).1 = ("", "{}").
Proof.
  intros Hcs.
  destruct (run_calls_quiet cs (newRuntimePolicy id) Hcs) as [Ho Hh]; [done|].
  rewrite (surjective_pairing (getData _ _).1).
  rewrite (proj1 (getData_output _ _)), getData_prettyStr, Ho.
  unfold getData_trace. rewrite Hh. simpl. by rewrite prettyStr_empty.
Qed.

End LifecycleFacts.

(** ** More on render *)
Section RenderFacts.
Context `{Rxbk}.

Lemma compact_loop_buffer (mode : DebugMode) (history : list (string * string))
    (trace : Json) (buffer : gmap string (list string)) :
  mode ≠ OUTPUT_AND_TRACES_WITH_DETAILS →
  (foldl (getData_step mode) (trace, buffer) history).2 = buffer.
Proof.
  intros Hm. revert trace.
  induction history as [|[a c] history IH]; intros trace; [done|].
  cbn [foldl]. destruct mode; try done; simpl; apply IH.
Qed.

(** A render in a mode other than the detailed one leaves every bucket of
    verbose lines as it was: those lines stay buffered until a detailed
    render names their asset. *)
Theorem getData_compact_keeps_verbose (mode : DebugMode) (p : RuntimePolicy) :
  mode ≠ OUTPUT_AND_TRACES_WITH_DETAILS →
  m_traceBuffer (getData mode p).2 = m_traceBuffer p.
Proof.
  intros Hm. rewrite getData_traceBuffer. by apply compact_loop_buffer.
Qed.

Lemma output_only_loop (history : list (string * string)) (trace : Json)
    (buffer : gmap string (list string)) :
  foldl (getData_step OUTPUT_ONLY) (trace, buffer) history = (trace, buffer).
Proof. induction history as [|[a c] history IH]; [done|]. apply IH. Qed.

(** In mode [OUTPUT_ONLY] a render returns the output string and the empty
    trace document, however many condition records are logged. *)
Theorem getData_output_only (p : RuntimePolicy) :
  (getData OUTPUT_ONLY p).1 = (m_output p, "{}").
Proof.
  rewrite (surjective_pairing (getData _ _).1).
  rewrite (proj1 (getData_output _ _)), getData_prettyStr.
  unfold getData_trace. rewrite output_only_loop. simpl.
  by rewrite prettyStr_empty.
Qed.

(** *** The loop in mode [OUTPUT_AND_TRACES] *)

Lemma compact_step (trace : Json) (buffer : gmap string (list string))
    (asset condition : string) :
  getData_step OUTPUT_AND_TRACES (trace, buffer) (asset, condition)
    = (<["/" +:+ c_str asset := c_str condition]> trace, buffer).
Proof. reflexivity. Qed.

Lemma compact_loop_other (key : string) (history : list (string * string))
    (trace : Json) (buffer : gmap string (list string)) :
  Forall (λ e, c_str e.1 ≠ key) history →
  (foldl (getData_step OUTPUT_AND_TRACES) (trace, buffer) history).1
      !! ("/" +:+ key)
    = trace !! ("/" +:+ key).
Proof.
  intros Hh. revert trace.
  induction Hh as [|[a c] history Ha Hh IH]; intros trace; [done|].
  cbn [foldl]. rewrite compact_step, IH.
  apply lookup_insert_ne. intros Heq. by apply path_inj in Heq.
Qed.

(** In mode [OUTPUT_AND_TRACES] the last record of an asset wins: the value
    rendered at "/" + asset is the condition of the last record in the log
    whose asset reads the same up to its first NUL byte. *)
Theorem getData_compact_last_wins (p : RuntimePolicy)
    (before after : list (string * string)) (asset condition : string) :
  m_history p = before ++ (asset, condition) :: after →
  Forall (λ e, c_str e.1 ≠ c_str asset) after →
  getString ("/" +:+ c_str asset) (getData_trace OUTPUT_AND_TRACES p)
    = Some (c_str condition).
Proof.
  intros Hh Hafter. unfold getString, getData_trace. rewrite Hh, foldl_app.
  destruct (foldl _ _ before) as [trace buffer]. cbn [foldl].
  rewrite compact_step, compact_loop_other by done.
  apply lookup_insert_eq.
Qed.

(** In mode [OUTPUT_AND_TRACES] the trace document has a value at a key
    exactly when some record of the log names it. *)
Theorem getData_compact_keys (p : RuntimePolicy) (key : string) :
  is_Some (getString ("/" +:+ key) (getData_trace OUTPUT_AND_TRACES p))
  ↔ Exists (λ e, c_str e.1 = key) (m_history p).
Proof.
  unfold getString, getData_trace.
  generalize (m_traceBuffer p). generalize (m_history p).
  intros history buffer.
  assert (∀ trace,
    is_Some ((foldl (getData_step OUTPUT_AND_TRACES) (trace, buffer) history).1
               !! ("/" +:+ key))
    ↔ is_Some (trace !! ("/" +:+ key)) ∨ Exists (λ e, c_str e.1 = key) history)
    as Hloop.
  { induction history as [|[a c] history IH]; intros trace.
    - rewrite Exists_nil. simpl. tauto.
    - cbn [foldl]. rewrite compact_step, IH, Exists_cons. simpl.
      destruct (decide (c_str a = key)) as [<-|Hne].
      + rewrite lookup_insert_eq. split; [|by left].
        intros _. by right; left.
      + rewrite lookup_insert_ne; [tauto|].
        intros Heq. by apply path_inj in Heq. }
  rewrite Hloop, lookup_empty. split; [|by right].
  intros [[? ?]|?]; done.
Qed.

(** *** The loop in the detailed mode *)

(** An asset the drained log does not name is left out of a detailed
    render and keeps its bucket, lines included. *)
Theorem getData_detailed_unnamed (p : RuntimePolicy) (asset : string) :
  occurrences asset (m_history p) = 0 →
  getString ("/" +:+ asset) (getData_trace OUTPUT_AND_TRACES_WITH_DETAILS p)
    = None
  ∧ m_traceBuffer (getData OUTPUT_AND_TRACES_WITH_DETAILS p).2 !! asset
    = m_traceBuffer p !! asset.
Proof.
  intros Hocc. unfold getString, getData_trace. rewrite getData_traceBuffer.
  destruct (m_traceBuffer p !! asset) as [lines|] eqn:Hb.
  - destruct (detailed_loop asset (m_history p) ∅ (m_traceBuffer p) lines Hb)
      as [-> ->].
    by rewrite Hocc.
  - by destruct (detailed_loop_no_bucket asset (m_history p) ∅
                   (m_traceBuffer p) Hb) as [-> ->].
Qed.

(** A detailed render has a value at "/" + asset exactly when the drained
    log names the asset and a bucket of verbose lines exists for it. *)
Theorem getData_detailed_keys (p : RuntimePolicy) (asset : string) :
  is_Some (getString ("/" +:+ asset)
             (getData_trace OUTPUT_AND_TRACES_WITH_DETAILS p))
  ↔ 0 < occurrences asset (m_history p) ∧ is_Some (m_traceBuffer p !! asset).
Proof.
  unfold getString, getData_trace.
  destruct (m_traceBuffer p !! asset) as [lines|] eqn:Hb.
  - destruct (detailed_loop asset (m_history p) ∅ (m_traceBuffer p) lines Hb)
      as [-> _].
    destruct (occurrences asset (m_history p)) as [|[|n]].
    + rewrite lookup_empty. split; [by intros [? ?]|]. intros [? _]. lia.
    + split; [|done]. intros _. split; [lia|done].
    + split; [|done]. intros _. split; [lia|done].
  - destruct (detailed_loop_no_bucket asset (m_history p) ∅
                (m_traceBuffer p) Hb) as [-> _].
    rewrite lookup_empty. split; [by intros [? ?]|]. by intros [_ [? ?]].
Qed.

Lemma sorted_same_elements (l1 l2 : list string) :
  StronglySorted string_lt l1 → StronglySorted string_lt l2 →
  (∀ x, x ∈ l1 ↔ x ∈ l2) → l1 = l2.
Proof.
  intros Hs1. revert l2.
  induction Hs1 as [|x l1 Hs1 IH Hx]; intros l2 Hs2 Hel.
  - destruct l2 as [|y l2]; [done|].
    exfalso. apply (not_elem_of_nil y), Hel, list_elem_of_here.
  - destruct Hs2 as [|y l2 Hs2 Hy].
    { exfalso. apply (not_elem_of_nil x), Hel, list_elem_of_here. }
    rewrite Forall_forall in Hx, Hy.
    assert (x = y) as <-.
    { pose proof (proj1 (Hel x) (list_elem_of_here _ _)) as Hxin.
      pose proof (proj2 (Hel y) (list_elem_of_here _ _)) as Hyin.
      apply elem_of_cons in Hxin as [?|Hxin]; [done|].
      apply elem_of_cons in Hyin as [?|Hyin]; [done|].
      exfalso. apply (string_lt_irrefl x).
      apply (string_lt_trans x y x); auto. }
    f_equal. apply IH; [done|]. intros z. split; intros Hz.
    + pose proof (proj1 (Hel z) (list_elem_of_further _ _ _ Hz)) as Hz'.
      apply elem_of_cons in Hz' as [->|?]; [|done].
      exfalso. by apply (string_lt_irrefl x), Hx.
    + pose proof (proj2 (Hel z) (list_elem_of_further _ _ _ Hz)) as Hz'.
      apply elem_of_cons in Hz' as [->|?]; [|done].
      exfalso. by apply (string_lt_irrefl x), Hy.
Qed.

Lemma uniqueTraces_same_elements (l1 l2 : list string) :
  (∀ x, x ∈ l1 ↔ x ∈ l2) → uniqueTraces l1 = uniqueTraces l2.
Proof.
  intros Hel. apply sorted_same_elements; [apply uniqueTraces_sorted..|].
  intros x. by rewrite !elem_of_uniqueTraces.
Qed.

Lemma detailed_loop_same_line_sets (history : list (string * string))
    (trace : Json) (b1 b2 : gmap string (list string)) :
  same_line_sets b1 b2 →
  (foldl (getData_step OUTPUT_AND_TRACES_WITH_DETAILS) (trace, b1) history).1
    = (foldl (getData_step OUTPUT_AND_TRACES_WITH_DETAILS) (trace, b2) history).1.
Proof.
  revert trace b1 b2.
  induction history as [|[a c] history IH]; intros trace b1 b2 Hb; [done|].
  cbn [foldl]. pose proof (Hb a) as Ha. unfold getData_step.
  destruct Ha as [l1 l2 Hl|].
  - rewrite (uniqueTraces_same_elements l1 l2 Hl). apply IH.
    intros k. destruct (decide (a = k)) as [<-|Hne].
    + rewrite !lookup_insert_eq. by constructor.
    + rewrite !lookup_insert_ne by done. apply Hb.
  - by apply IH.
Qed.

(** What a detailed render returns depends on the buffered verbose lines
    only through the set of lines of each asset: neither the order in which
    the lines came nor how often each came shows. *)
Theorem getData_detailed_ignores_repetition (p1 p2 : RuntimePolicy) :
  m_output p1 = m_output p2 →
  m_history p1 = m_history p2 →
  same_line_sets (m_traceBuffer p1) (m_traceBuffer p2) →
  (getData OUTPUT_AND_TRACES_WITH_DETAILS p1).1
    = (getData OUTPUT_AND_TRACES_WITH_DETAILS p2).1.
Proof.
  intros Ho Hh Hb.
  rewrite (surjective_pairing (getData _ p1).1),
    (surjective_pairing (getData _ p2).1).
  rewrite !(proj1 (getData_output _ _)), !getData_prettyStr, Ho.
  unfold getData_trace. rewrite Hh.
  by rewrite (detailed_loop_same_line_sets _ _ _ _ Hb).
Qed.

End RenderFacts.

(** ** More on the trace sink *)
Section SinkFacts.
Context `{Rxbk}.

Lemma span_all (cs : charset) (s : string) :
  all_chars (cs_match cs) (span cs s).1 = true.
Proof.
  induction s as [|c s IH]; simpl; [done|].
  destruct (cs_match cs c) eqn:Hc; simpl; [|done]. by rewrite Hc, IH.
Qed.

Lemma span_app_stop (cs : charset) (k s : string) :
  all_chars (cs_match cs) k = true →
  (s = "" ∨ ∃ c s', s = String c s' ∧ cs_match cs c = false) →
  span cs (k +:+ s) = (k, s).
Proof.
  intros Hk Hs. induction k as [|d k IH].
  - rewrite app_nil. destruct Hs as [->|(c & s' & -> & Hc)]; simpl; [done|].
    by rewrite Hc.
  - simpl in Hk. apply andb_true_iff in Hk as [Hd Hk].
    rewrite app_cons. simpl. rewrite Hd, IH by done. done.
Qed.

Lemma all_chars_ext (f g : ascii → bool) (s : string) :
  (∀ c, f c = g c) → all_chars f s = all_chars g s.
Proof. intros Hfg. induction s as [|c s IH]; simpl; [done|]. by rewrite Hfg, IH. Qed.

Lemma is_empty_false (s : string) : is_empty s = false ↔ s ≠ "".
Proof. by destruct s. Qed.

Lemma verbose_key_anchored (trace : string) :
  verbose_key trace
    = (λ m, str m 1) <$> trace_shape true "] " false true trace.
Proof.
  unfold verbose_key.
  by rewrite (regex_search_ext _ _ _ opRegexVerbose_pattern),
    regex_search_anchored.
Qed.

Lemma verbose_key_iff (trace key : string) :
  verbose_key trace = Some key
  ↔ ∃ c rest,
      trace = "[" +:+ key +:+ "] " +:+ String c rest
      ∧ key ≠ ""
      ∧ all_chars (λ d, negb (is_rbracket d)) key = true
      ∧ is_line_terminator c = false.
Proof.
  rewrite verbose_key_anchored. unfold trace_shape. simpl andb. split.
  - destruct trace as [|b s1]; [done|]. case_bool_decide as Hb; [|done].
    destruct (is_empty (span not_rbracket s1).1) eqn:He1; [done|].
    destruct (strip_prefix _ _) as [s3|] eqn:Hs3; [|done].
    destruct (is_empty (span CsAny s3).1) eqn:He2; [done|].
    simpl. intros [= Hkey].
    apply is_empty_false in He1, He2.
    destruct (span_fst_nonempty _ _ He2) as (c & rest & -> & Hc).
    exists c, rest. apply strip_prefix_Some in Hs3.
    rewrite <-Hkey. split; [|split; [done|split]].
    + rewrite Hb, app_cons, app_nil, <-Hs3. f_equal. symmetry. apply span_app.
    + rewrite <-(span_all not_rbracket s1). apply all_chars_ext.
      intros d. by rewrite not_rbracket_spec.
    + simpl in Hc. by apply negb_true_iff in Hc.
  - intros (c & rest & -> & Hne & Hall & Hc).
    rewrite app_cons, app_nil. rewrite bool_decide_eq_true_2 by done.
    rewrite span_app_stop.
    + cbn [fst snd]. apply is_empty_false in Hne. rewrite Hne.
      rewrite strip_prefix_app. simpl. by rewrite Hc.
    + rewrite <-Hall. apply all_chars_ext. intros d.
      by rewrite not_rbracket_spec.
    + right. by exists "]"%char, (" " +:+ String c rest).
Qed.

(** The verbose pattern files a line under [key] exactly when the line is
    an opening bracket, the key, a closing bracket, a space and at least
    one more character that is no line terminator, where the key is not
    empty and has no closing bracket in it. *)
Theorem verbose_key_shape (trace key : string) :
  verbose_key trace = Some key
  ↔ ∃ c rest,
      trace = "[" +:+ key +:+ "] " +:+ String c rest
      ∧ key ≠ ""
      ∧ all_chars (λ d, negb (is_rbracket d)) key = true
      ∧ is_line_terminator c = false.
Proof. apply verbose_key_iff. Qed.

Lemma regex_search_condition_line (key payload tail : string) :
  key ≠ "" →
  all_chars (λ d, negb (is_rbracket d)) key = true →
  payload ≠ "" →
  all_chars (λ d, negb (is_line_terminator d)) payload = true →
  (tail = "" ∨ ∃ c t, tail = String c t ∧ is_line_terminator c = true) →
  regex_search opRegex ("[" +:+ key +:+ "] [condition]:" +:+ payload +:+ tail)
    = Some (MState false tail [(2, payload); (1, key)]).
Proof.
  intros Hk Hkall Hp Hpall Htail. apply regex_search_at_start.
  rewrite opRegex_pattern, rmatch_trace_pattern. unfold trace_shape.
  rewrite app_cons, app_nil. simpl andb.
  rewrite bool_decide_eq_true_2 by done. rewrite span_app_stop.
  - cbn [fst snd]. apply is_empty_false in Hk. rewrite Hk.
    rewrite strip_prefix_app. rewrite (span_app_stop CsAny payload tail).
    + cbn [fst snd]. apply is_empty_false in Hp. by rewrite Hp.
    + done.
    + destruct Htail as [->|(c & t & -> & Hc)]; [by left|right].
      exists c, t. split; [done|]. simpl. by rewrite Hc.
  - rewrite <-Hkall. apply all_chars_ext. intros d.
    by rewrite not_rbracket_spec.
  - right. by exists "]"%char, (" [condition]:" +:+ payload +:+ tail).
Qed.

(** A line made of a bracketed asset, [" [condition]:"] and a payload is
    recorded twice: the pair of the asset and of the payload up to its
    first line terminator goes to the end of the condition log, and the
    whole line, what follows the terminator included, goes to the end of
    the asset's bucket. *)
Theorem onTrace_condition_line (key payload tail : string) (p : RuntimePolicy) :
  key ≠ "" →
  all_chars (λ d, negb (is_rbracket d)) key = true →
  payload ≠ "" →
  all_chars (λ d, negb (is_line_terminator d)) payload = true →
  (tail = "" ∨ ∃ c t, tail = String c t ∧ is_line_terminator c = true) →
  m_history
      (onTrace ("[" +:+ key +:+ "] [condition]:" +:+ payload +:+ tail) p)
    = m_history p ++ [(key, payload)]
  ∧ m_traceBuffer
      (onTrace ("[" +:+ key +:+ "] [condition]:" +:+ payload +:+ tail) p)
    = <[key := default [] (m_traceBuffer p !! key)
               ++ ["[" +:+ key +:+ "] [condition]:" +:+ payload +:+ tail]]>
        (m_traceBuffer p).
Proof.
  intros Hk Hkall Hp Hpall Htail.
  rewrite onTrace_history, onTrace_traceBuffer.
  rewrite regex_search_condition_line by done. split; [done|].
  assert (verbose_key ("[" +:+ key +:+ "] [condition]:" +:+ payload +:+ tail)
          = Some key) as Hv.
  { apply verbose_key_iff.
    exists "["%char, ("condition]:" +:+ payload +:+ tail). by repeat split. }
  unfold verbose_key in Hv.
  destruct (regex_search opRegexVerbose _) as [m|]; [|done].
  simpl in Hv. by injection Hv as ->.
Qed.

Lemma search_condition_without_payload (s : string) (b : bool) :
  all_chars (λ d, negb (is_rbracket d)) s = true →
  search_from opRegex b (s +:+ "] [condition]:") = None.
Proof.
  intros Hs. revert b. induction s as [|d s IH]; intros b.
  - rewrite app_nil. by destruct b; vm_compute.
  - simpl in Hs. apply andb_true_iff in Hs as [Hd Hs].
    rewrite app_cons. cbn [search_from].
    rewrite opRegex_pattern, rmatch_trace_pattern, IH by done.
    unfold trace_shape. simpl andb. case_bool_decide; [|done].
    rewrite span_app_stop.
    + cbn [fst snd]. by destruct (is_empty s).
    + rewrite <-Hs. apply all_chars_ext. intros c.
      by rewrite not_rbracket_spec.
    + right. by exists "]"%char, " [condition]:".
Qed.

(** A condition line without a payload, ["[<asset>] [condition]:"] and
    nothing more, adds no condition record; it is still appended to the
    asset's bucket of verbose lines. *)
Theorem onTrace_condition_without_payload (key : string) (p : RuntimePolicy) :
  key ≠ "" →
  all_chars (λ d, negb (is_rbracket d)) key = true →
  m_history (onTrace ("[" +:+ key +:+ "] [condition]:") p) = m_history p
  ∧ m_traceBuffer (onTrace ("[" +:+ key +:+ "] [condition]:") p)
    = <[key := default [] (m_traceBuffer p !! key)
               ++ ["[" +:+ key +:+ "] [condition]:"]]> (m_traceBuffer p).
Proof.
  intros Hk Hkall. rewrite onTrace_history, onTrace_traceBuffer.
  assert (regex_search opRegex ("[" +:+ key +:+ "] [condition]:") = None) as ->.
  { unfold regex_search.
    change ("[" +:+ key +:+ "] [condition]:")
      with (String "[" key +:+ "] [condition]:").
    apply search_condition_without_payload. simpl. by rewrite Hkall. }
  split; [done|].
  assert (verbose_key ("[" +:+ key +:+ "] [condition]:") = Some key) as Hv.
  { apply verbose_key_iff. exists "["%char, "condition]:". by repeat split. }
  unfold verbose_key in Hv.
  destruct (regex_search opRegexVerbose _) as [m|]; [|done].
  simpl in Hv. by injection Hv as ->.
Qed.

Lemma onTrace_bucket (trace asset : string) (p : RuntimePolicy) :
  m_traceBuffer (onTrace trace p) !! asset
    = if decide (verbose_key trace = Some asset)
      then Some (default [] (m_traceBuffer p !! asset) ++ [trace])
      else m_traceBuffer p !! asset.
Proof.
  rewrite onTrace_traceBuffer. unfold verbose_key.
  destruct (regex_search opRegexVerbose trace) as [m|]; simpl.
  - destruct (decide (Some (str m 1) = Some asset)) as [[= ->]|Hne].
    + by rewrite lookup_insert_eq.
    + rewrite lookup_insert_ne; [done|]. congruence.
  - by destruct (decide (None = Some asset)).
Qed.

Lemma deliver_traces_buffers (lines : list string) (p : RuntimePolicy)
    (asset : string) :
  m_history (run_calls (deliver_traces lines) p)
    = m_history p ++ omap condition_record lines
  ∧ m_traceBuffer (run_calls (deliver_traces lines) p) !! asset
    = match filter (λ t, verbose_key t = Some asset) lines with
      | [] => m_traceBuffer p !! asset
      | filed => Some (default [] (m_traceBuffer p !! asset) ++ filed)
      end.
Proof.
  revert p. induction lines as [|t lines IH]; intros p.
  - simpl. by rewrite app_nil_r.
  - unfold run_calls, deliver_traces in *.
    cbn [fmap list_fmap foldl call_step].
    destruct (IH (onTrace t p)) as [IHh IHb]. rewrite IHh, IHb. split.
    + rewrite onTrace_history.
      change (omap condition_record (t :: lines))
        with (match condition_record t with
              | Some y => y :: omap condition_record lines
              | None => omap condition_record lines
              end).
      unfold condition_record at 2.
      destruct (regex_search opRegex t); simpl; [|done].
      by rewrite <-app_assoc.
    + rewrite onTrace_bucket.
      destruct (decide (verbose_key t = Some asset)) as [Hk|Hk].
      * rewrite filter_cons_True by done.
        destruct (filter _ lines) as [|t' filed]; simpl; [done|].
        by rewrite <-app_assoc.
      * by rewrite filter_cons_False by done.
Qed.

(** Deliveries only append, in arrival order: after a run of trace lines
    the condition log is the old log followed by the records of the lines
    that have one, and the bucket of an asset is its old content followed
    by the lines filed under that asset; a bucket no line was filed under
    is as before. *)
Theorem deliver_traces_in_order (lines : list string) (p : RuntimePolicy)
    (asset : string) :
  m_history (run_calls (deliver_traces lines) p)
    = m_history p ++ omap condition_record lines
  ∧ m_traceBuffer (run_calls (deliver_traces lines) p) !! asset
    = match filter (λ t, verbose_key t = Some asset) lines with
      | [] => m_traceBuffer p !! asset
      | filed => Some (default [] (m_traceBuffer p !! asset) ++ filed)
      end.
Proof. apply deliver_traces_buffers. Qed.

(** A detailed render that names an asset forgets the lines it had for it:
    whatever lines are delivered afterwards, the bucket of the asset holds
    those filed under it since, and none from before the render. *)
Theorem getData_detailed_then_deliveries (p : RuntimePolicy) (asset : string)
    (old lines : list string) :
  m_traceBuffer p !! asset = Some old →
  0 < occurrences asset (m_history p) →
  m_traceBuffer
      (run_calls (deliver_traces lines)
         (getData OUTPUT_AND_TRACES_WITH_DETAILS p).2) !! asset
    = Some (filter (λ t, verbose_key t = Some asset) lines).
Proof.
  intros Hb Hocc.
  destruct (deliver_traces_buffers lines
              (getData OUTPUT_AND_TRACES_WITH_DETAILS p).2 asset) as [_ ->].
  rewrite getData_traceBuffer.
  destruct (detailed_loop asset (m_history p) ∅ (m_traceBuffer p) old Hb)
    as [_ ->].
  destruct (occurrences asset (m_history p)); [lia|].
  by destruct (filter _ lines).
Qed.

End SinkFacts.

(** ** The further properties on the concrete collaborators *)
Section FactsOnScenario.
Import Scenario.
#[local] Existing Instance rxbk.

Lemma built_is_permanent_witness :
  is_Some (m_spController built)
  ∧ is_Some
      (m_spController
         (run_calls
            [CallGetData OUTPUT_AND_TRACES_WITH_DETAILS;
             DeliverTrace condition_line; @CallBuild rxbk catalog;
             @CallProcessEvent rxbk "event"] built))
  ∧ m_environment
      (run_calls
         [CallGetData OUTPUT_AND_TRACES_WITH_DETAILS;
          DeliverTrace condition_line; @CallBuild rxbk catalog;
          @CallProcessEvent rxbk "event"] built)
    = m_environment built.
Proof.
  assert (is_Some (m_spController built)) as Hb.
  { exists (MkController good_pipeline 1 1 []). reflexivity. }
  split; [exact Hb|].
  exact (built_is_permanent (H := rxbk)
           [CallGetData OUTPUT_AND_TRACES_WITH_DETAILS;
            DeliverTrace condition_line; @CallBuild rxbk catalog;
            @CallProcessEvent rxbk "event"] built Hb).
Defined.

Lemma processEvents_in_order_witness :
  m_spController built = Some (MkController good_pipeline 1 1 [])
  ∧ run_calls (@process_events rxbk ["first"; "second"]) built
    = set_spController
        (Some (MkController good_pipeline 1 1
                 [makeSuccess "first"; makeSuccess "second"])) built.
Proof.
  split; [reflexivity|].
  exact (processEvents_in_order (H := rxbk) ["first"; "second"] built
           (MkController good_pipeline 1 1 []) eq_refl).
Defined.

Lemma output_last_writer_wins_witness :
  Forall (λ k, @is_output_delivery rxbk k = false)
    [DeliverTrace condition_line; CallGetData OUTPUT_ONLY;
     @CallProcessEvent rxbk "event"]
  ∧ (getData OUTPUT_AND_TRACES
       (run_calls
          [DeliverTrace condition_line; CallGetData OUTPUT_ONLY;
           @CallProcessEvent rxbk "event"]
          (onOutput (@makeSuccess (@Event rxbk) "{}") built))).1.1
    = "{}" +:+ String "010" "".
Proof.
  assert (Forall (λ k, @is_output_delivery rxbk k = false)
            [DeliverTrace condition_line; CallGetData OUTPUT_ONLY;
             @CallProcessEvent rxbk "event"]) as Hq.
  { repeat constructor. }
  split; [exact Hq|].
  exact (output_last_writer_wins (H := rxbk) (makeSuccess "{}") _
           OUTPUT_AND_TRACES built Hq).
Defined.

Lemma render_before_any_delivery_witness :
  Forall (λ k, @is_delivery rxbk k = false)
    [@CallProcessEvent rxbk "event"; @CallBuild rxbk catalog;
     @CallProcessEvent rxbk "event"]
  ∧ (getData OUTPUT_AND_TRACES_WITH_DETAILS
       (run_calls
          [@CallProcessEvent rxbk "event"; @CallBuild rxbk catalog;
           @CallProcessEvent rxbk "event"]
          (newRuntimePolicy "policy/x/0"))).1
    = ("", "{}").
Proof.
  assert (Forall (λ k, @is_delivery rxbk k = false)
            [@CallProcessEvent rxbk "event"; @CallBuild rxbk catalog;
             @CallProcessEvent rxbk "event"]) as Hq.
  { repeat constructor. }
  split; [exact Hq|].
  exact (render_before_any_delivery (H := rxbk) "policy/x/0" _
           OUTPUT_AND_TRACES_WITH_DETAILS Hq).
Defined.

Lemma getData_compact_keeps_verbose_witness :
  OUTPUT_AND_TRACES ≠ OUTPUT_AND_TRACES_WITH_DETAILS
  ∧ m_traceBuffer (getData OUTPUT_AND_TRACES one_event).2
    = m_traceBuffer one_event.
Proof.
  assert (OUTPUT_AND_TRACES ≠ OUTPUT_AND_TRACES_WITH_DETAILS) as Hm
    by discriminate.
  split; [exact Hm|].
  exact (getData_compact_keeps_verbose (H := rxbk) OUTPUT_AND_TRACES one_event Hm).
Defined.

Lemma getData_compact_last_wins_witness :
  m_history
      (run_calls
         (deliver_traces
            ["[decoder/d/0] [condition]:failure"; condition_line;
             "[rule/r/0] [condition]:success"]) built)
    = [("decoder/d/0", "failure")]
      ++ ("decoder/d/0", "matched") :: [("rule/r/0", "success")]
  ∧ Forall (λ e : string * string, c_str e.1 ≠ c_str "decoder/d/0")
      [("rule/r/0", "success")]
  ∧ getString "/decoder/d/0"
      (getData_trace OUTPUT_AND_TRACES
         (run_calls
            (deliver_traces
               ["[decoder/d/0] [condition]:failure"; condition_line;
                "[rule/r/0] [condition]:success"]) built))
    = Some "matched".
Proof.
  assert (Forall (λ e : string * string, c_str e.1 ≠ c_str "decoder/d/0")
            [("rule/r/0", "success")]) as Hafter.
  { repeat constructor. vm_compute. discriminate. }
  split; [reflexivity|]. split; [exact Hafter|].
  exact (getData_compact_last_wins (H := rxbk)
           (run_calls
              (deliver_traces
                 ["[decoder/d/0] [condition]:failure"; condition_line;
                  "[rule/r/0] [condition]:success"]) built)
           [("decoder/d/0", "failure")]
           [("rule/r/0", "success")] "decoder/d/0" "matched" eq_refl Hafter).
Defined.

Lemma getData_detailed_unnamed_witness :
  occurrences "filter/f/0"
    (m_history
       (run_calls (deliver_traces ["[filter/f/0] hit"; condition_line]) built))
    = 0
  ∧ getString "/filter/f/0"
      (getData_trace OUTPUT_AND_TRACES_WITH_DETAILS
         (run_calls (deliver_traces ["[filter/f/0] hit"; condition_line]) built))
    = None
  ∧ m_traceBuffer
      (getData OUTPUT_AND_TRACES_WITH_DETAILS
         (run_calls (deliver_traces ["[filter/f/0] hit"; condition_line]) built)).2
      !! "filter/f/0"
    = m_traceBuffer
        (run_calls (deliver_traces ["[filter/f/0] hit"; condition_line]) built)
        !! "filter/f/0".
Proof.
  split; [reflexivity|].
  exact (getData_detailed_unnamed (H := rxbk)
           (run_calls (deliver_traces ["[filter/f/0] hit"; condition_line]) built)
           "filter/f/0" eq_refl).
Defined.

Lemma getData_detailed_ignores_repetition_witness :
  same_line_sets
    (<["decoder/d/0" := [condition_line; verbose_line; verbose_line]]> ∅)
    (<["decoder/d/0" := [verbose_line; condition_line]]> ∅)
  ∧ (getData OUTPUT_AND_TRACES_WITH_DETAILS
       (set_traceBuffer
          (<["decoder/d/0" := [condition_line; verbose_line; verbose_line]]> ∅)
          one_event)).1
    = (getData OUTPUT_AND_TRACES_WITH_DETAILS
         (set_traceBuffer
            (<["decoder/d/0" := [verbose_line; condition_line]]> ∅)
            one_event)).1.
Proof.
  assert (same_line_sets
            (<["decoder/d/0" := [condition_line; verbose_line; verbose_line]]> ∅)
            (<["decoder/d/0" := [verbose_line; condition_line]]> ∅)) as Hs.
  { intros asset. destruct (decide ("decoder/d/0" = asset)) as [<-|Hne].
    - rewrite !lookup_insert_eq. constructor. intros line.
      rewrite !elem_of_cons, !elem_of_nil. tauto.
    - rewrite !lookup_insert_ne, !lookup_empty by done. constructor. }
  split; [exact Hs|].
  apply (getData_detailed_ignores_repetition (H := rxbk)
           (set_traceBuffer
              (<["decoder/d/0" := [condition_line; verbose_line; verbose_line]]> ∅)
              one_event)
           (set_traceBuffer
              (<["decoder/d/0" := [verbose_line; condition_line]]> ∅) one_event)).
  - reflexivity.
  - reflexivity.
  - unfold set_traceBuffer. cbn [m_traceBuffer]. exact Hs.
Defined.

Lemma onTrace_condition_line_witness :
  m_history
      (onTrace
         ("[" +:+ "decoder/d/0" +:+ "] [condition]:" +:+ "matched"
          +:+ String "010" "second line") built)
    = m_history built ++ [("decoder/d/0", "matched")]
  ∧ m_traceBuffer
      (onTrace
         ("[" +:+ "decoder/d/0" +:+ "] [condition]:" +:+ "matched"
          +:+ String "010" "second line") built)
    = <["decoder/d/0" :=
          default [] (m_traceBuffer built !! "decoder/d/0")
          ++ ["[" +:+ "decoder/d/0" +:+ "] [condition]:" +:+ "matched"
              +:+ String "010" "second line"]]> (m_traceBuffer built).
Proof.
  apply (onTrace_condition_line (H := rxbk) "decoder/d/0" "matched"
           (String "010" "second line") built).
  - discriminate.
  - reflexivity.
  - discriminate.
  - reflexivity.
  - right. exists "010"%char, "second line". split; reflexivity.
Defined.

Lemma onTrace_condition_without_payload_witness :
  m_history (onTrace ("[" +:+ "decoder/d/0" +:+ "] [condition]:") built)
    = m_history built
  ∧ m_traceBuffer (onTrace ("[" +:+ "decoder/d/0" +:+ "] [condition]:") built)
    = <["decoder/d/0" :=
          default [] (m_traceBuffer built !! "decoder/d/0")
          ++ ["[" +:+ "decoder/d/0" +:+ "] [condition]:"]]>
        (m_traceBuffer built).
Proof.
  apply (onTrace_condition_without_payload (H := rxbk) "decoder/d/0" built).
  - discriminate.
  - reflexivity.
Defined.

Lemma getData_detailed_then_deliveries_witness :
  m_traceBuffer one_event !! "decoder/d/0"
    = Some [condition_line; verbose_line; verbose_line]
  ∧ 0 < occurrences "decoder/d/0" (m_history one_event)
  ∧ m_traceBuffer
      (run_calls (deliver_traces ["[decoder/d/0] miss"; "[rule/r/0] hit"])
         (getData OUTPUT_AND_TRACES_WITH_DETAILS one_event).2)
      !! "decoder/d/0"
    = Some (filter (λ t, verbose_key t = Some "decoder/d/0")
              ["[decoder/d/0] miss"; "[rule/r/0] hit"]).
Proof.
  assert (0 < occurrences "decoder/d/0" (m_history one_event)) as Hocc.
  { vm_compute. lia. }
  split; [reflexivity|]. split; [exact Hocc|].
  exact (getData_detailed_then_deliveries (H := rxbk) one_event "decoder/d/0"
           [condition_line; verbose_line; verbose_line]
           ["[decoder/d/0] miss"; "[rule/r/0] hit"] eq_refl Hocc).
Defined.

End FactsOnScenario.

(** ** The converter between YAML and JSON documents *)
Section ConverterFacts.
Context `{YamlCpp}.

Lemma assign_member_not_nil (key : string) (value : YamlNode)
    (pairs : list (YamlNode * YamlNode)) :
  assign_member key value pairs ≠ [].
Proof. destruct pairs as [|[k v] pairs]; simpl; [done|]. by case_bool_decide. Qed.

Lemma members_loop_not_nil (convert : JsonValue Double → YamlNode)
    (members : list (string * JsonValue Double))
    (node : list (YamlNode * YamlNode)) :
  node ≠ [] →
  foldl (λ node m, assign_member (c_str m.1) (convert m.2) node) node members
    ≠ [].
Proof.
  revert node. induction members as [|m members IH]; intros node Hn; [done|].
  simpl. apply IH, assign_member_not_nil.
Qed.

(** [jsonToYaml] returns the null node for exactly four kinds of value:
    JSON null, the empty object, the empty array, and an integer that does
    not fit [int]; [yamlToJson] reads the null node back as JSON null, so
    the last three do not survive the way to YAML and back. *)
Theorem jsonToYaml_null_iff (value : JsonValue Double) :
  (jsonToYaml value = YNull
   ↔ value = JNull ∨ value = JObject [] ∨ value = JArray []
     ∨ ∃ i, value = JInt i ∧ ¬ (-2147483648 ≤ i ≤ 2147483647)%Z)
  ∧ yamlToJson YNull = Some JNull.
Proof.
  split; [|done]. split.
  - destruct value as [|b|i|d|s|items|members]; simpl.
    + by left.
    + done.
    + unfold IsInt. case_bool_decide; [done|]. intros _.
      right; right; right. by exists i.
    + done.
    + done.
    + destruct items as [|x items]; [|done]. intros _. by right; right; left.
    + destruct members as [|m members]; [intros _; by right; left|].
      simpl.
      pose proof (members_loop_not_nil jsonToYaml members
                    (assign_member (c_str m.1) (jsonToYaml m.2) [])
                    (assign_member_not_nil _ _ _)) as Hne.
      by destruct (foldl _ _ members).
  - intros [->|[->|[->|(i & -> & Hi)]]]; try done.
    simpl. unfold IsInt. by rewrite bool_decide_eq_false_2.
Qed.

Lemma YamlNode_nested_ind (P : YamlNode → Prop) :
  P YUndefined → P YNull → (∀ tag text, P (YScalar tag text)) →
  (∀ items, Forall P items → P (YSequence items)) →
  (∀ pairs, Forall (λ kv, P kv.2) pairs → P (YMap pairs)) →
  ∀ root, P root.
Proof.
  intros Hu Hn Hs Hq Hm. fix IH 1. intros [| |tag text|items|pairs].
  - exact Hu.
  - exact Hn.
  - apply Hs.
  - apply Hq. induction items as [|y items IHitems]; constructor.
    + apply IH.
    + exact IHitems.
  - apply Hm. induction pairs as [|[k v] pairs IHpairs]; constructor.
    + apply IH.
    + exact IHpairs.
Qed.

(** [yamlToJson] throws exactly when some map of the document, at any
    depth, has a key that [as<std::string>()] refuses; nothing else in a
    document makes the conversion fail. *)
Theorem yamlToJson_throws_iff (root : YamlNode) :
  yamlToJson root = None ↔ Exists (λ key, as_string key = None) (map_keys root).
Proof.
  induction root as [| |tag text|items IH|pairs IH] using YamlNode_nested_ind;
    simpl; try (rewrite Exists_nil; by split).
  - rewrite fmap_None, mapM_None.
    induction IH as [|y items Hy _ IHitems].
    + by rewrite !Exists_nil.
    + cbn [mbind list_bind]. rewrite Exists_cons, Exists_app, Hy, IHitems.
      done.
  - rewrite fmap_None, mapM_None.
    induction IH as [|[k v] pairs Hv _ IHpairs].
    + by rewrite !Exists_nil.
    + cbn [mbind list_bind fst snd]. cbn [mbind list_bind] in IHpairs.
      rewrite Exists_cons, Exists_app, Exists_cons, IHpairs. simpl.
      rewrite <-Hv.
      destruct (as_string k) as [key|]; simpl.
      * destruct (yamlToJson v); simpl; [|tauto].
        split; [intros [?|?]; [done|by right]|].
        intros [[?|?]|?]; [done|done|by right].
      * split; [|by left]. intros _. by left; left.
Qed.

(** *** Objects with a repeated member name *)

Lemma assign_member_keys (key : string) (value x : YamlNode)
    (pairs : list (YamlNode * YamlNode)) :
  x ∈ (assign_member key value pairs).*1 → x ∈ pairs.*1 ∨ x = YScalar "" key.
Proof.
  induction pairs as [|[k v] pairs IH]; simpl.
  - rewrite list_elem_of_singleton. by right.
  - case_bool_decide; simpl; [by left|].
    rewrite !elem_of_cons. intros [->|Hx]; [by left; left|].
    destruct (IH Hx); [by left; right|by right].
Qed.

Lemma assign_member_plain (key : string) (value : YamlNode)
    (pairs : list (YamlNode * YamlNode)) :
  plain_keys pairs → plain_keys (assign_member key value pairs).
Proof.
  unfold plain_keys. induction 1 as [|[k v] pairs Hk Hp IH]; simpl.
  - repeat constructor. by exists key.
  - case_bool_decide; constructor; done.
Qed.

Lemma assign_member_NoDup (key : string) (value : YamlNode)
    (pairs : list (YamlNode * YamlNode)) :
  plain_keys pairs → NoDup pairs.*1 → NoDup (assign_member key value pairs).*1.
Proof.
  unfold plain_keys. induction 1 as [|[k v] pairs Hk Hp IH]; simpl.
  - intros _. apply NoDup_singleton.
  - rewrite NoDup_cons. intros [Hnin Hnd].
    case_bool_decide as Hkey; simpl; rewrite NoDup_cons; [done|].
    split; [|by apply IH]. intros Hin.
    apply assign_member_keys in Hin as [? | ->]; [done|].
    by destruct Hkey.
Qed.

Lemma assign_member_new (key : string) (value : YamlNode)
    (pairs : list (YamlNode * YamlNode)) :
  plain_keys pairs → (YScalar "" key, value) ∈ assign_member key value pairs.
Proof.
  unfold plain_keys. induction 1 as [|[k v] pairs Hk Hp IH]; simpl.
  - apply list_elem_of_here.
  - case_bool_decide as Hkey.
    + destruct Hk as [text Hk]. simpl in Hk. subst k. simpl in Hkey.
      injection Hkey as ->. apply list_elem_of_here.
    + by apply list_elem_of_further.
Qed.

Lemma assign_member_other (key : string) (value k v : YamlNode)
    (pairs : list (YamlNode * YamlNode)) :
  (k, v) ∈ pairs → scalar_text k ≠ Some key →
  (k, v) ∈ assign_member key value pairs.
Proof.
  intros Hin Hne. induction pairs as [|[k' v'] pairs IH]; simpl.
  - by apply elem_of_nil in Hin.
  - apply elem_of_cons in Hin as [Heq|Hin].
    + injection Heq as <- <-.
      rewrite bool_decide_eq_false_2 by done. apply list_elem_of_here.
    + case_bool_decide; apply list_elem_of_further; [done|by apply IH].
Qed.

Lemma members_loop_keys (convert : JsonValue Double → YamlNode)
    (members : list (string * JsonValue Double))
    (node : list (YamlNode * YamlNode)) :
  plain_keys node → NoDup node.*1 →
  plain_keys
    (foldl (λ node m, assign_member (c_str m.1) (convert m.2) node) node members)
  ∧ NoDup
      (foldl (λ node m, assign_member (c_str m.1) (convert m.2) node) node
         members).*1.
Proof.
  revert node. induction members as [|m members IH]; intros node Hp Hn; [done|].
  simpl. apply IH; [by apply assign_member_plain|by apply assign_member_NoDup].
Qed.

Lemma members_loop_keeps (convert : JsonValue Double → YamlNode)
    (members : list (string * JsonValue Double))
    (node : list (YamlNode * YamlNode)) (text : string) (v : YamlNode) :
  (YScalar "" text, v) ∈ node →
  Forall (λ m, c_str m.1 ≠ text) members →
  (YScalar "" text, v)
    ∈ foldl (λ node m, assign_member (c_str m.1) (convert m.2) node) node
        members.
Proof.
  intros Hin Hm. revert node Hin.
  induction Hm as [|m members Hne Hm IH]; intros node Hin; [done|].
  simpl. apply IH, assign_member_other; [done|]. simpl. congruence.
Qed.

(** [jsonToYaml] turns an object into a map whose keys are pairwise
    distinct: members whose names read the same up to their first NUL byte
    share one pair, which holds the value of the last of them. *)
Theorem jsonToYaml_repeated_member
    (before after : list (string * JsonValue Double)) (name : string)
    (value : JsonValue Double) :
  Forall (λ m, c_str m.1 ≠ c_str name) after →
  ∃ pairs,
    jsonToYaml (JObject (before ++ (name, value) :: after)) = YMap pairs
    ∧ NoDup pairs.*1
    ∧ (YScalar "" (c_str name), jsonToYaml value) ∈ pairs.
Proof.
  intros Hafter. cbn [jsonToYaml].
  set (step := λ (node : list (YamlNode * YamlNode))
                 (m : string * JsonValue Double),
                 assign_member (c_str m.1) (jsonToYaml m.2) node).
  destruct (members_loop_keys jsonToYaml before []) as [Hp Hn];
    [constructor|constructor|]. fold step in Hp, Hn.
  rewrite foldl_app. cbn [foldl].
  set (node := step (foldl step [] before) (name, value)).
  assert (plain_keys node) as Hp' by (by apply assign_member_plain).
  assert (NoDup node.*1) as Hn' by (by apply assign_member_NoDup).
  assert ((YScalar "" (c_str name), jsonToYaml value) ∈ node) as Hin
    by (by apply assign_member_new).
  destruct (members_loop_keys jsonToYaml after node Hp' Hn') as [_ Hnd].
  pose proof (members_loop_keeps jsonToYaml after node _ _ Hin Hafter) as Hkept.
  fold step in Hnd, Hkept.
  destruct (foldl step node after) as [|kv pairs] eqn:Hloop.
  - by apply elem_of_nil in Hkept.
  - by exists (kv :: pairs).
Qed.

End ConverterFacts.

(** ** The converter on a concrete yaml-cpp *)
Section ConverterOnScenario.
Import YamlScenario.
#[local] Existing Instance yaml_cpp.

Lemma jsonToYaml_repeated_member_witness :
  Forall (λ m : string * JsonValue (@Double yaml_cpp), c_str m.1 ≠ c_str "a")
    [("b", JBool true)]
  ∧ ∃ pairs,
      jsonToYaml repeated_member = YMap pairs
      ∧ NoDup pairs.*1
      ∧ (YScalar "" "a", YScalar "" "last") ∈ pairs.
Proof.
  assert (Forall (λ m : string * JsonValue (@Double yaml_cpp),
                    c_str m.1 ≠ c_str "a") [("b", JBool true)]) as Hafter.
  { repeat constructor. vm_compute. discriminate. }
  split; [exact Hafter|].
  exact (jsonToYaml_repeated_member (H := yaml_cpp)
           [("a", JInt 1)] [("b", JBool true)] "a" (JString "last") Hafter).
Defined.

End ConverterOnScenario.

(** ** The errors of [build], and the condition pattern inside a line *)
Section ErrorFacts.
Context `{Rxbk}.

(** [build] returns two kinds of error and no other: "already built" on an
    object that holds a controller, which it leaves untouched, and "Error
    building policy [<name>]: " followed by the text of the exception that
    the builder, the controller construction or one of the two
    subscriptions threw, the first of them to throw. *)
Theorem build_error_kinds (b : Builder) (p : RuntimePolicy) (e : Error) :
  (build b p).1 = Some e →
  (is_Some (m_spController p)
   ∧ message e = "Policy '" +:+ m_asset p +:+ "' is already built"
   ∧ (build b p).2 = p)
  ∨ (m_spController p = None
     ∧ ∃ x,
         message e = "Error building policy [" +:+ m_asset p +:+ "]: " +:+ x
         ∧ (buildPolicy b (m_asset p) = Throws x
            ∨ ∃ env,
                buildPolicy b (m_asset p) = Returns env
                ∧ (buildRxPipeline env = Throws x
                   ∨ ∃ c,
                       buildRxPipeline env = Returns c
                       ∧ (getOutput_subscribe c = Throws x
                          ∨ ∃ c1,
                              getOutput_subscribe c = Returns c1
                              ∧ listenOnAllTrace c1 = Throws x)))).
Proof.
  unfold build. destruct (m_spController p) as [c0|] eqn:Hc.
  { simpl. intros [= <-]. left. by split; [eexists|]. }
  unfold mbind, M_bind, call, assign, subscribeToOutput, listenAllTrace.
  intros He. right. split; [done|]. revert He.
  destruct (buildPolicy b (m_asset p)) as [env|x] eqn:Hb; simpl.
  2: { intros [= <-]. exists x. split; [done|]. by left. }
  destruct (buildRxPipeline env) as [c|x] eqn:Hp; simpl.
  2: { intros [= <-]. exists x. split; [done|]. right. exists env.
       split; [done|]. by left. }
  destruct (getOutput_subscribe c) as [c1|x] eqn:Ho; simpl.
  2: { intros [= <-]. exists x. split; [done|]. right. exists env.
       split; [done|]. right. exists c. split; [done|]. by left. }
  destruct (listenOnAllTrace c1) as [c2|x] eqn:Ht; simpl; [done|].
  intros [= <-]. exists x. split; [done|]. right. exists env.
  split; [done|]. right. exists c. split; [done|]. right. by exists c1.
Qed.

Lemma rmatch_opRegex_anywhere (b : bool) (s : string) :
  rmatch opRegex Some (MState b s []) = rmatch opRegex Some (MState false s []).
Proof.
  rewrite !opRegex_pattern, !rmatch_trace_pattern. by destruct b.
Qed.

Lemma search_from_opRegex_anywhere (b : bool) (s : string) :
  search_from opRegex b s = search_from opRegex false s.
Proof. destruct s; cbn [search_from]; by rewrite rmatch_opRegex_anywhere. Qed.

(** The condition pattern is looked for anywhere in a line: when a line
    yields a condition record, so does that line with any text put in
    front of it. *)
Theorem condition_record_after_prefix (front trace : string) :
  is_Some (condition_record trace) →
  is_Some (condition_record (front +:+ trace)).
Proof.
  unfold condition_record, regex_search. rewrite !fmap_is_Some.
  intros Ht. rewrite search_from_opRegex_anywhere in Ht.
  rewrite search_from_opRegex_anywhere.
  induction front as [|c front IH].
  - by rewrite app_nil.
  - rewrite app_cons. cbn [search_from].
    by destruct (rmatch opRegex Some _).
Qed.

End ErrorFacts.

(** ** These on the concrete collaborators *)
Section ErrorFactsOnScenario.
Import Scenario.
#[local] Existing Instance rxbk.

Lemma build_error_kinds_witness :
  (build catalog (fresh "policy/z/0")).1
    = Some (MkError
              "Error building policy [policy/z/0]: policy not found: policy/z/0")
  ∧ ((is_Some (m_spController (fresh "policy/z/0"))
      ∧ "Error building policy [policy/z/0]: policy not found: policy/z/0"
        = "Policy '" +:+ "policy/z/0" +:+ "' is already built"
      ∧ (build catalog (fresh "policy/z/0")).2 = fresh "policy/z/0")
     ∨ (m_spController (fresh "policy/z/0") = None
        ∧ ∃ x,
            "Error building policy [policy/z/0]: policy not found: policy/z/0"
              = "Error building policy [" +:+ "policy/z/0" +:+ "]: " +:+ x
            ∧ (catalog "policy/z/0" = Throws x
               ∨ ∃ env,
                   catalog "policy/z/0" = Returns env
                   ∧ (make_controller env = Throws x
                      ∨ ∃ c,
                          make_controller env = Returns c
                          ∧ (subscribe_output c = Throws x
                             ∨ ∃ c1,
                                 subscribe_output c = Returns c1
                                 ∧ subscribe_traces c1 = Throws x))))).
Proof.
  split; [reflexivity|].
  exact (build_error_kinds (H := rxbk) catalog (fresh "policy/z/0")
           (MkError
              "Error building policy [policy/z/0]: policy not found: policy/z/0")
           eq_refl).
Defined.

Lemma condition_record_after_prefix_witness :
  is_Some (condition_record condition_line)
  ∧ is_Some (condition_record ("2023-07-01 " +:+ condition_line)).
Proof.
  assert (is_Some (condition_record condition_line)) as Hc.
  { exists ("decoder/d/0", "matched"). reflexivity. }
  split; [exact Hc|].
  exact (condition_record_after_prefix "2023-07-01 " condition_line Hc).
Defined.

End ErrorFactsOnScenario.
